(** * Service_data_conversion: the extraction-and-expansion pipeline of main.py

    A shallow embedding of [src/main.py] and of the part of the Python
    runtime it relies on, followed by the properties of the pipeline.

    Conventions of the embedding.
    - A Python [str] is the list of its code points ([pystr]); the classes
      of white space and of decimal digits are those of the Unicode
      database (version 14).
    - Python values are the ones a JSON document or a spreadsheet cell can
      hold ([pyval]); a [float] is carried by its [repr], the text [str()]
      gives for it, and the conversion of a JSON number literal to a float is
      the decoder's [parse_float] hook, a parameter of the development.
    - A raised exception is the [Raise] outcome of a [result].
    - The completion service ([ollama.chat]) is a parameter: a function of an
      abstract state of the outside world and of the prompt.
    - [print] and [time.sleep] have no effect on any value computed and are
      left out; [pd.read_excel] and [to_excel] are the boundary of the model,
      which starts from the table read and ends with the table to write.
    - Limits of the interpreter (recursion depth, the cap on the number of
      digits of an [int] conversion) are not modelled: integers are [Z]. *)

From Stdlib Require Import String Ascii.
From Stdlib Require DecimalPos.
From Stdlib Require Import ZArith NArith Lia Bool List.
Import ListNotations.

#[local] Set Warnings "-register-all".

Local Open Scope Z_scope.

(* ================================================================= *)
(** ** Strings *)

(** A Python string: its code points, in order. *)
Definition pystr : Type := list N.

(** The string written as an ASCII literal. *)
Definition lit (s : string) : pystr :=
  map N_of_ascii (list_ascii_of_string s).

(** The same, with every apostrophe of the literal standing for a double
    quote (code point 34): JSON texts and the prompt are written this way. *)
Definition dq (s : string) : pystr :=
  map (fun c => if N.eqb c 39 then 34%N else c) (lit s).

Definition pystr_eqb (a b : pystr) : bool :=
  if list_eq_dec N.eq_dec a b then true else false.

(** [str.isspace] of one code point, which is also the class [\s] of [re]
    on [str] patterns. *)
Definition is_space (c : N) : bool :=
  existsb (N.eqb c)
    [9; 10; 11; 12; 13; 28; 29; 30; 31; 32; 133; 160; 5760;
     8192; 8193; 8194; 8195; 8196; 8197; 8198; 8199; 8200; 8201; 8202;
     8232; 8233; 8239; 8287; 12288]%N.

(** The code points of the digit zero of every run of ten decimal digits
    (Unicode category Nd): the class [\d] of [re] on [str] patterns, and the
    digits [int()] accepts. *)
Definition decimal_zeros : list N :=
  [48; 1632; 1776; 1984; 2406; 2534; 2662; 2790; 2918; 3046; 3174; 3302;
   3430; 3558; 3664; 3792; 3872; 4160; 4240; 6112; 6160; 6470; 6608; 6784;
   6800; 6992; 7088; 7232; 7248; 42528; 43216; 43264; 43472; 43504; 43600;
   44016; 65296; 66720; 68912; 69734; 69872; 69942; 70096; 70384; 70736;
   70864; 71248; 71360; 71472; 71904; 72016; 72784; 73040; 73120; 92768;
   92864; 93008; 120782; 120792; 120802; 120812; 120822; 123200; 123632;
   125264; 130032]%N.

(** The value of a decimal digit, [None] for any other code point. *)
Definition decimal_value (c : N) : option N :=
  match find (fun z => (z <=? c)%N && (c <? z + 10)%N) decimal_zeros with
  | Some z => Some (c - z)%N
  | None => None
  end.

Definition is_decimal (c : N) : bool :=
  match decimal_value c with Some _ => true | None => false end.

(** Longest prefix of [s] whose code points satisfy [p], and the rest. *)
Fixpoint span (p : N -> bool) (s : pystr) : pystr * pystr :=
  match s with
  | c :: s' =>
      if p c then let (a, b) := span p s' in (c :: a, b) else ([], s)
  | [] => ([], [])
  end.

Fixpoint drop_while (p : N -> bool) (s : pystr) : pystr :=
  match s with
  | c :: s' => if p c then drop_while p s' else s
  | [] => []
  end.

(** [s.strip()] *)
Definition str_strip (s : pystr) : pystr :=
  rev (drop_while is_space (rev (drop_while is_space s))).

(** [s.startswith(p)] *)
Fixpoint starts_with (p s : pystr) : bool :=
  match p, s with
  | [], _ => true
  | a :: p', b :: s' => N.eqb a b && starts_with p' s'
  | _ :: _, [] => false
  end.

(** [s.replace(old, empty)] for a non-empty [old] and the empty string
    [empty]: the occurrences of [old] are removed from left to right, without
    overlap.  [skip] counts the code points of the occurrence being removed
    that are still to be dropped. *)
Fixpoint remove_from (old s : pystr) (skip : nat) : pystr :=
  match s with
  | [] => []
  | c :: s' =>
      match skip with
      | S k => remove_from old s' k
      | O =>
          if starts_with old s then remove_from old s' (length old - 1)
          else c :: remove_from old s' 0
      end
  end.

Definition str_remove (old s : pystr) : pystr := remove_from old s 0.

(** [sep.join(parts)] *)
Fixpoint str_join (sep : pystr) (parts : list pystr) : pystr :=
  match parts with
  | [] => []
  | [p] => p
  | p :: rest => p ++ sep ++ str_join sep rest
  end.

(* ================================================================= *)
(** ** Integers and their decimal text *)

Fixpoint digits_of_uint (u : Decimal.uint) : pystr :=
  match u with
  | Decimal.Nil => []
  | Decimal.D0 u => 48%N :: digits_of_uint u
  | Decimal.D1 u => 49%N :: digits_of_uint u
  | Decimal.D2 u => 50%N :: digits_of_uint u
  | Decimal.D3 u => 51%N :: digits_of_uint u
  | Decimal.D4 u => 52%N :: digits_of_uint u
  | Decimal.D5 u => 53%N :: digits_of_uint u
  | Decimal.D6 u => 54%N :: digits_of_uint u
  | Decimal.D7 u => 55%N :: digits_of_uint u
  | Decimal.D8 u => 56%N :: digits_of_uint u
  | Decimal.D9 u => 57%N :: digits_of_uint u
  end.

(** [str(n)] for an [int]. *)
Definition str_of_int (z : Z) : pystr :=
  match Z.to_int z with
  | Decimal.Pos u => digits_of_uint u
  | Decimal.Neg u => 45%N :: digits_of_uint u
  end.

(** Reading decimal digits, most significant first, onto [acc]; a code
    point that is not a digit counts for zero. *)
Definition digits_fold (acc : Z) (s : pystr) : Z :=
  fold_left
    (fun acc c =>
       10 * acc + match decimal_value c with Some d => Z.of_N d | None => 0 end)
    s acc.

(** [int(s)] for a string of decimal digits (the callers pass digit
    strings only). *)
Definition int_of_digits (s : pystr) : Z := digits_fold 0 s.

(** [list(range(start, stop))] *)
Definition py_range (start stop : Z) : list Z :=
  map (fun i => start + Z.of_nat i) (seq 0 (Z.to_nat (stop - start))).

(* ================================================================= *)
(** ** Outcomes *)

Inductive exn : Type :=
| TypeError
| AttributeError
| JSONDecodeError
| ResponseError.

Inductive result (A : Type) : Type :=
| Ok (a : A)
| Raise (e : exn).

Arguments Ok {A} a.
Arguments Raise {A} e.

Definition bind {A B : Type} (r : result A) (k : A -> result B) : result B :=
  match r with
  | Ok a => k a
  | Raise e => Raise e
  end.

Notation "x <- r ;; k" := (bind r (fun x => k))
  (at level 61, r at next level, right associativity).

(* ================================================================= *)
(** ** Python values *)

Inductive pyval : Type :=
| PNone
| PBool (b : bool)
| PInt (z : Z)
| PFloat (repr : pystr)
| PStr (s : pystr)
| PList (l : list pyval)
| PDict (d : list (pystr * pyval)).

(** A [dict] is the list of its items in insertion order, without
    duplicate keys. *)
Definition dict : Type := list (pystr * pyval).

Fixpoint dict_lookup (d : dict) (k : pystr) : option pyval :=
  match d with
  | [] => None
  | (k', v) :: d' => if pystr_eqb k k' then Some v else dict_lookup d' k
  end.

(** [d[k] = v]: the value of a key already present is replaced where the
    key stands, a new key goes last. *)
Fixpoint dict_set (d : dict) (k : pystr) (v : pyval) : dict :=
  match d with
  | [] => [(k, v)]
  | (k', v') :: d' =>
      if pystr_eqb k k' then (k', v) :: d' else (k', v') :: dict_set d' k v
  end.

(** One row of the input table, as [iterrows] gives it: the cell of each
    column label. *)
Definition Series : Type := dict.

(** The truth value of an object ([bool(v)], as tested by [if] and [not]). *)
Definition py_bool (v : pyval) : bool :=
  match v with
  | PNone => false
  | PBool b => b
  | PInt z => negb (z =? 0)
  | PFloat r => negb (pystr_eqb r (lit "0.0") || pystr_eqb r (lit "-0.0"))
  | PStr s => match s with [] => false | _ => true end
  | PList l => match l with [] => false | _ => true end
  | PDict d => match d with [] => false | _ => true end
  end.

(** The items a [for] loop (or [map], or [join]) draws from an object:
    the elements of a list, the characters of a string, the keys of a
    dict; the other values are not iterable. *)
Definition py_iter (v : pyval) : result (list pyval) :=
  match v with
  | PList l => Ok l
  | PStr s => Ok (map (fun c => PStr [c]) s)
  | PDict d => Ok (map (fun kv => PStr (fst kv)) d)
  | PNone | PBool _ | PInt _ | PFloat _ => Raise TypeError
  end.

(** [obj.get(key, default)]: only a dict has the method. *)
Definition py_get (obj : pyval) (key : pystr) (default : pyval)
  : result pyval :=
  match obj with
  | PDict d =>
      Ok (match dict_lookup d key with Some v => v | None => default end)
  | _ => Raise AttributeError
  end.

(* ================================================================= *)
(** ** Stand-ins for the parameters, for the examples *)

(** [str.isprintable] on the code points 128 to 255. *)
Definition latin1_printable (c : N) : bool :=
  (161 <=? c)%N && (c <=? 255)%N && negb (c =? 173)%N.

(** A [parse_float] for texts that hold no number with a fraction or an
    exponent: it keeps the text of the number. *)
Definition literal_float (text : pystr) : pystr := text.

(** A completion service that plays back canned outcomes, one per call,
    and fails once they are used up; its state is what is left to play. *)
Definition canned_chat (w : list (result pystr)) (prompt : pystr)
  : result pystr * list (result pystr) :=
  match w with
  | outcome :: w' => (outcome, w')
  | [] => (Raise ResponseError, [])
  end.

(** The response of the end-to-end example: the JSON text of the record,
    between code fences. *)
Definition example_text : pystr :=
  lit "```json" ++ [10%N]
  ++ dq "{'serviceCodes':['100-102'],'diagnosisCodes':['X1','X2'],"
  ++ dq "'revenueCodes':[],'modifier':'M1','pos':['11'],"
  ++ dq "'typeOfBill':'131','gender':'F','minAge':'18','maxAge':'65'}"
  ++ [10%N] ++ lit "```".

(** A response with two service codes, one of them a range. *)
Definition short_text : pystr :=
  dq "{'serviceCodes': ['7', '9-10'], 'diagnosisCodes': []}".

(** Input rows. *)
Definition example_row : Series :=
  [ (lit "SERVICE_CATEGORY_NAME", PStr (lit "Office visit"));
    (lit "DEFINITION", PStr (lit "CPT 100 to 102, ages 18 to 65")) ].

Definition other_row : Series :=
  [ (lit "SERVICE_CATEGORY_NAME", PStr (lit "Imaging"));
    (lit "DEFINITION", PStr (lit "CPT 7 and 9-10")) ].

(* ================================================================= *)
(** ** Text of a value: [repr] and [str] *)

Definition hex_digit (n : N) : N :=
  if (n <? 10)%N then (48 + n)%N else (87 + n)%N.

(** The [width] lowest hexadecimal digits of [n], most significant first. *)
Fixpoint hex_fixed (width : nat) (n : N) : pystr :=
  match width with
  | O => []
  | S w => hex_fixed w (n / 16)%N ++ [hex_digit (n mod 16)%N]
  end.

Section Runtime.

(** [str.isprintable] of one code point, a table of the Unicode database;
    [repr] consults it for the code points from 128 on only. *)
Variable isprintable : N -> bool.

(** What [repr] writes for one character of a string quoted by [quote]. *)
Definition repr_char (quote c : N) : pystr :=
  if (c =? quote)%N || (c =? 92)%N then [92%N; c]
  else if (c =? 9)%N then lit "\t"
  else if (c =? 10)%N then lit "\n"
  else if (c =? 13)%N then lit "\r"
  else if (c <? 32)%N || (c =? 127)%N then lit "\x" ++ hex_fixed 2 c
  else if (c <? 127)%N then [c]
  else if isprintable c then [c]
  else if (c <=? 255)%N then lit "\x" ++ hex_fixed 2 c
  else if (c <=? 65535)%N then lit "\u" ++ hex_fixed 4 c
  else lit "\U" ++ hex_fixed 8 c.

(** [repr(s)] for a string: single quotes, unless the string holds a
    single quote and no double quote. *)
Definition repr_str (s : pystr) : pystr :=
  let quote :=
    if existsb (N.eqb 39) s && negb (existsb (N.eqb 34) s)
    then 34%N else 39%N in
  quote :: flat_map (repr_char quote) s ++ [quote].

Fixpoint py_repr (v : pyval) : pystr :=
  match v with
  | PNone => lit "None"
  | PBool true => lit "True"
  | PBool false => lit "False"
  | PInt z => str_of_int z
  | PFloat r => r
  | PStr s => repr_str s
  | PList l => lit "[" ++ str_join (lit ", ") (map py_repr l) ++ lit "]"
  | PDict d =>
      lit "{"
      ++ str_join (lit ", ")
           (map (fun kv =>
                   match kv with
                   | (k, x) => repr_str k ++ lit ": " ++ py_repr x
                   end) d)
      ++ lit "}"
  end.

(** [str(v)], which is also what an f-string writes for [{v}]. *)
Definition py_str (v : pyval) : pystr :=
  match v with
  | PStr s => s
  | _ => py_repr v
  end.

(* ================================================================= *)
(** ** Utility functions of main.py *)

(** [safe_join(values)], lines 12-16. *)
Definition safe_join (values : pyval) : result pystr :=
  if negb (py_bool values) then Ok []
  else
    items <- py_iter values ;;
    Ok (str_join (lit ",") (map py_str items)).

(** [re.match(r"(\d+)\s*-\s*(\d+)", s)]: groups 1 and 2 of the match
    that starts at the first character of [s], [None] when there is none.
    Every quantifier of the pattern is greedy and is followed by a character
    outside its class, so the only candidate is the one that takes each run
    whole. *)
Definition re_match_range (s : pystr) : option (pystr * pystr) :=
  let (g1, r1) := span is_decimal s in
  match g1 with
  | [] => None
  | _ :: _ =>
      match drop_while is_space r1 with
      | c :: r2 =>
          if (c =? 45)%N then
            let (g2, _) := span is_decimal (drop_while is_space r2) in
            match g2 with
            | [] => None
            | _ :: _ => Some (g1, g2)
            end
          else None
      | [] => None
      end
  end.

(** The inner loop, lines 33-34: [for num in range(start, end + 1):
    expanded.append(str(num))]. *)
Definition append_range (expanded : list pystr) (start end_ : Z)
  : list pystr :=
  fold_left (fun acc num => acc ++ [str_of_int num])
    (py_range start (end_ + 1)) expanded.

(** The body of the outer loop, lines 26-36, as the new value of
    [expanded]. *)
Definition expand_code (expanded : list pystr) (code : pyval) : list pystr :=
  let code_str := py_str code in
  match re_match_range code_str with
  | Some (g1, g2) =>
      let start := int_of_digits g1 in
      let end_ := int_of_digits g2 in
      append_range expanded start end_
  | None => expanded ++ [code_str]
  end.

(** [expand_service_ranges(service_codes)], lines 19-38. *)
Definition expand_service_ranges (service_codes : pyval)
  : result (list pystr) :=
  codes <- py_iter service_codes ;;
  Ok (fold_left expand_code codes []).

(* ================================================================= *)
(** ** The JSON decoder ([json.loads], after the scanner of the [json]
       module) *)

(** The outcome of scanning a term at the head of a text. *)
Inductive scan (A : Type) : Type :=
| Parsed (a : A) (rest : pystr)
| Failed
| OutOfFuel.

Arguments Parsed {A} a rest.
Arguments Failed {A}.
Arguments OutOfFuel {A}.

Definition is_json_ws (c : N) : bool :=
  (c =? 32)%N || (c =? 9)%N || (c =? 10)%N || (c =? 13)%N.

Definition skip_ws (s : pystr) : pystr := drop_while is_json_ws s.

Definition is_ascii_digit (c : N) : bool := (48 <=? c)%N && (c <=? 57)%N.

Definition hex_value (c : N) : option N :=
  if (48 <=? c)%N && (c <=? 57)%N then Some (c - 48)%N
  else if (97 <=? c)%N && (c <=? 102)%N then Some (c - 87)%N
  else if (65 <=? c)%N && (c <=? 70)%N then Some (c - 55)%N
  else None.

(** The character a one-letter escape stands for. *)
Definition escape_char (c : N) : option N :=
  if (c =? 34)%N || (c =? 92)%N || (c =? 47)%N then Some c
  else if (c =? 98)%N then Some 8%N
  else if (c =? 102)%N then Some 12%N
  else if (c =? 110)%N then Some 10%N
  else if (c =? 114)%N then Some 13%N
  else if (c =? 116)%N then Some 9%N
  else None.

Definition is_high_surrogate (c : N) : bool :=
  (55296 <=? c)%N && (c <=? 56319)%N.

Definition is_low_surrogate (c : N) : bool :=
  (56320 <=? c)%N && (c <=? 57343)%N.

Definition join_surrogates (h l : N) : N :=
  (65536 + ((h - 55296) * 1024 + (l - 56320)))%N.

(** Where the string scanner stands: between characters, after a
    backslash, or inside a [\uXXXX] escape with [remaining] digits still to
    read and the value [v] read so far. *)
Inductive sstate : Type :=
| SPlain
| SEscape
| SHex (remaining : nat) (v : N).

Definition flush (high : option N) (acc : pystr) : pystr :=
  match high with
  | Some h => h :: acc
  | None => acc
  end.

(** [scanstring], from the character after the opening quote: the decoded
    string and the text after the closing quote.  [high] is a high
    surrogate just decoded from an escape, kept back until it is known
    whether a low surrogate escape follows it; [acc] is the decoded text so
    far, last character first. *)
Fixpoint scanstring_from (s : pystr) (st : sstate) (high : option N)
  (acc : pystr) : scan pystr :=
  match s with
  | [] => Failed
  | c :: s' =>
      match st with
      | SPlain =>
          if (c =? 34)%N then Parsed (rev (flush high acc)) s'
          else if (c =? 92)%N then scanstring_from s' SEscape high acc
          else if (c <=? 31)%N then Failed
          else scanstring_from s' SPlain None (c :: flush high acc)
      | SEscape =>
          if (c =? 117)%N then scanstring_from s' (SHex 4 0) high acc
          else
            match escape_char c with
            | Some e => scanstring_from s' SPlain None (e :: flush high acc)
            | None => Failed
            end
      | SHex remaining v =>
          match hex_value c with
          | None => Failed
          | Some d =>
              let v' := (16 * v + d)%N in
              match remaining with
              | S (S k) => scanstring_from s' (SHex (S k) v') high acc
              | _ =>
                  match high with
                  | Some h =>
                      if is_low_surrogate v' then
                        scanstring_from s' SPlain None
                          (join_surrogates h v' :: acc)
                      else if is_high_surrogate v' then
                        scanstring_from s' SPlain (Some v') (h :: acc)
                      else scanstring_from s' SPlain None (v' :: h :: acc)
                  | None =>
                      if is_high_surrogate v' then
                        scanstring_from s' SPlain (Some v') acc
                      else scanstring_from s' SPlain None (v' :: acc)
                  end
              end
          end
      end
  end.

Definition scanstring (s : pystr) : scan pystr :=
  scanstring_from s SPlain None [].

(** The parts of a number at the head of a text, each with the text that
    follows it: an optional minus sign; *)
Definition take_sign (s : pystr) : pystr * pystr :=
  match s with
  | c :: t => if (c =? 45)%N then ([c], t) else ([], s)
  | [] => ([], s)
  end.

(** a zero, or a run of digits that starts with a non-zero digit; *)
Definition take_int (s : pystr) : option (pystr * pystr) :=
  match s with
  | c :: t =>
      if is_ascii_digit c then
        if (c =? 48)%N then Some ([c], t)
        else let (ds, r) := span is_ascii_digit t in Some (c :: ds, r)
      else None
  | [] => None
  end.

(** a dot with a run of digits, when there is one; *)
Definition take_frac (s : pystr) : pystr * pystr :=
  match s with
  | p :: u =>
      if (p =? 46)%N then
        let (fs, r) := span is_ascii_digit u in
        match fs with
        | [] => ([], s)
        | _ :: _ => (p :: fs, r)
        end
      else ([], s)
  | [] => ([], s)
  end.

(** [e] or [E] with an optional sign and a run of digits, when there is
    one. *)
Definition take_exp (s : pystr) : pystr * pystr :=
  match s with
  | e :: u =>
      if (e =? 101)%N || (e =? 69)%N then
        let (esign, u') :=
          match u with
          | g :: x =>
              if (g =? 43)%N || (g =? 45)%N then ([g], x) else ([], u)
          | [] => ([], u)
          end in
        let (es, r) := span is_ascii_digit u' in
        match es with
        | [] => ([], s)
        | _ :: _ => (e :: esign ++ es, r)
        end
      else ([], s)
  | [] => ([], s)
  end.

(** The number at the head of [s]: whether it has a fraction or an
    exponent, its text, and the rest. *)
Definition match_number (s : pystr) : option (bool * pystr * pystr) :=
  let (sign, s1) := take_sign s in
  match take_int s1 with
  | Some (int_part, r1) =>
      let (frac, r2) := take_frac r1 in
      let (expo, r3) := take_exp r2 in
      Some (match frac, expo with [], [] => false | _, _ => true end,
            sign ++ int_part ++ frac ++ expo, r3)
  | None => None
  end.

(** The conversion of the text of a JSON number with a fraction or an
    exponent to a float ([float], the decoder's [parse_float]): it gives the
    [repr] of the float. *)
Variable parse_float : pystr -> pystr.

Definition number_value (is_float : bool) (text : pystr) : pyval :=
  if is_float then PFloat (parse_float text)
  else
    match text with
    | c :: digits =>
        if (c =? 45)%N then PInt (- int_of_digits digits)
        else PInt (int_of_digits text)
    | [] => PInt 0
    end.

(** [scan_once]: the JSON term at the head of [s].  [parse_array] and
    [parse_object] read the items of an array and of an object from the first
    item on; every call spends one unit of [fuel]. *)
Fixpoint scan_once (fuel : nat) (s : pystr) : scan pyval :=
  match fuel with
  | O => OutOfFuel
  | S fuel' =>
      match s with
      | [] => Failed
      | c :: s1 =>
          if (c =? 34)%N then
            match scanstring s1 with
            | Parsed str rest => Parsed (PStr str) rest
            | Failed => Failed
            | OutOfFuel => OutOfFuel
            end
          else if (c =? 123)%N then
            match skip_ws s1 with
            | c' :: rest =>
                if (c' =? 125)%N then Parsed (PDict []) rest
                else parse_object fuel' (c' :: rest) []
            | [] => parse_object fuel' [] []
            end
          else if (c =? 91)%N then
            match skip_ws s1 with
            | c' :: rest =>
                if (c' =? 93)%N then Parsed (PList []) rest
                else parse_array fuel' (c' :: rest) []
            | [] => parse_array fuel' [] []
            end
          else if starts_with (lit "null") s then
            Parsed PNone (skipn 4 s)
          else if starts_with (lit "true") s then
            Parsed (PBool true) (skipn 4 s)
          else if starts_with (lit "false") s then
            Parsed (PBool false) (skipn 5 s)
          else if starts_with (lit "NaN") s then
            Parsed (PFloat (lit "nan")) (skipn 3 s)
          else if starts_with (lit "Infinity") s then
            Parsed (PFloat (lit "inf")) (skipn 8 s)
          else if starts_with (lit "-Infinity") s then
            Parsed (PFloat (lit "-inf")) (skipn 9 s)
          else
            match match_number s with
            | Some (is_float, text, rest) =>
                Parsed (number_value is_float text) rest
            | None => Failed
            end
      end
  end

with parse_array (fuel : nat) (s : pystr) (acc : list pyval) : scan pyval :=
  match fuel with
  | O => OutOfFuel
  | S fuel' =>
      match scan_once fuel' s with
      | Parsed v rest =>
          match skip_ws rest with
          | c :: rest' =>
              if (c =? 93)%N then Parsed (PList (rev (v :: acc))) rest'
              else if (c =? 44)%N then
                parse_array fuel' (skip_ws rest') (v :: acc)
              else Failed
          | [] => Failed
          end
      | Failed => Failed
      | OutOfFuel => OutOfFuel
      end
  end

with parse_object (fuel : nat) (s : pystr) (acc : dict) : scan pyval :=
  match fuel with
  | O => OutOfFuel
  | S fuel' =>
      match s with
      | q :: s1 =>
          if (q =? 34)%N then
            match scanstring s1 with
            | Parsed key rest =>
                match skip_ws rest with
                | c :: rest1 =>
                    if (c =? 58)%N then
                      match scan_once fuel' (skip_ws rest1) with
                      | Parsed v rest2 =>
                          let acc' := dict_set acc key v in
                          match skip_ws rest2 with
                          | c' :: rest3 =>
                              if (c' =? 125)%N then Parsed (PDict acc') rest3
                              else if (c' =? 44)%N then
                                parse_object fuel' (skip_ws rest3) acc'
                              else Failed
                          | [] => Failed
                          end
                      | Failed => Failed
                      | OutOfFuel => OutOfFuel
                      end
                    else Failed
                | [] => Failed
                end
            | Failed => Failed
            | OutOfFuel => OutOfFuel
            end
          else Failed
      | [] => Failed
      end
  end.

(** [json.loads(s)]: one term, with JSON white space around it and nothing
    else.  The fuel is enough for every text ([scan_once_fuel] below). *)
Definition json_loads (s : pystr) : result pyval :=
  match scan_once (2 * length s + 1) (skip_ws s) with
  | Parsed v rest =>
      match skip_ws rest with
      | [] => Ok v
      | _ :: _ => Raise JSONDecodeError
      end
  | Failed => Raise JSONDecodeError
  | OutOfFuel => Raise JSONDecodeError
  end.

(* ================================================================= *)
(** ** The completion service and [call_llm] *)

(** The state of everything outside the program that the completion
    service depends on, and the service itself: [ollama.chat] called with
    the model, the prompt as the one user message and temperature 0 either
    raises or gives a response, of which [call_llm] reads the text
    [response["message"]["content"]]. *)
Variable world : Type.
Variable ollama_chat : world -> pystr -> result pystr * world.

(** The prompt of lines 47-74, an f-string with the definition in it. *)
Definition prompt (definition : pyval) : pystr :=
  str_join [10%N]
    [ [];
      lit "You are a medical billing extraction assistant.";
      [];
      lit "Extract structured data from the following definition.";
      [];
      lit "Return STRICT JSON only in this format:";
      [];
      lit "{";
      dq "  'serviceCodes': [],";
      dq "  'diagnosisCodes': [],";
      dq "  'revenueCodes': [],";
      dq "  'modifier': '',";
      dq "  'pos': [],";
      dq "  'typeOfBill': '',";
      dq "  'gender': '',";
      dq "  'minAge': '',";
      dq "  'maxAge': ''";
      lit "}";
      [];
      lit "Rules:";
      dq "- Expand service code ranges like '99242 to 99245' into list";
      lit "- If nothing found return empty";
      lit "- Return JSON only";
      lit "- No explanation text";
      [];
      lit "Definition:";
      py_str definition;
      [] ].

(** [try: body except Exception: handler]. *)
Definition try_except {A : Type} (body : result A) (handler : exn -> result A)
  : result A :=
  match body with
  | Ok a => Ok a
  | Raise e => handler e
  end.

(** Line 86: the two [replace] calls and [strip]. *)
Definition strip_fences (content : pystr) : pystr :=
  str_strip (str_remove (lit "```") (str_remove (lit "```json") content)).

(** [call_llm(definition)], lines 45-92. *)
Definition call_llm (w : world) (definition : pyval) : result pyval * world :=
  let (response, w') := ollama_chat w (prompt definition) in
  (try_except
     (content <- response ;;
      json_loads (strip_fences content))
     (fun _ => Ok (PDict [])),
   w').

(* ================================================================= *)
(** ** Tables *)

(** [row.get(key, default)] *)
Definition series_get (row : Series) (key : pystr) (default : pyval)
  : pyval :=
  match dict_lookup row key with
  | Some v => v
  | None => default
  end.

Record DataFrame : Type := mkDataFrame {
  columns : list pystr;
  data : list (list pyval)
}.

(** The labels of [record] that are not in [cols] yet, added in order. *)
Definition add_labels (cols : list pystr) (record : dict) : list pystr :=
  fold_left
    (fun cols kv =>
       if existsb (pystr_eqb (fst kv)) cols then cols else cols ++ [fst kv])
    record cols.

(** [pd.DataFrame(records)] for a list of dicts: the columns are the keys
    of the dicts in order of first appearance, a dict without the key of a
    column has NaN there. *)
Definition pd_DataFrame (records : list dict) : DataFrame :=
  let cols := fold_left add_labels records [] in
  {| columns := cols;
     data :=
       map (fun record =>
              map (fun col => series_get record col (PFloat (lit "nan"))) cols)
         records |}.

(* ================================================================= *)
(** ** [process_excel] *)

(** The dict appended at lines 144-156. *)
Definition output_row (service_category : pyval) (code : pystr)
  (revenue_string : pystr) (gender : pyval) (age_range : pystr)
  (diagnosis_string pos_string : pystr) (type_of_bill modifier : pyval)
  : dict :=
  [ (lit "ServiceCategory", service_category);
    (lit "ServiceCode", PStr code);
    (lit "RevenueCode", PStr revenue_string);
    (lit "Gender", PStr (py_str gender));
    (lit "Age", PStr age_range);
    (lit "DiagnosisCode", PStr diagnosis_string);
    (lit "POS", PStr pos_string);
    (lit "TypeOfBill", PStr (py_str type_of_bill));
    (lit "Modifier", PStr (py_str modifier));
    (lit "Minutes", PInt 1);
    (lit "Billed_Amnt", PInt 100) ].

(** Lines 117-156: what a row with the non-empty extraction [llm_data]
    appends to [output_rows]. *)
Definition expand_row (service_category llm_data : pyval)
  (output_rows : list dict) : result (list dict) :=
  service_codes <- py_get llm_data (lit "serviceCodes") (PList []) ;;
  diagnosis_codes <- py_get llm_data (lit "diagnosisCodes") (PList []) ;;
  revenue_codes <- py_get llm_data (lit "revenueCodes") (PList []) ;;
  modifier <- py_get llm_data (lit "modifier") (PStr []) ;;
  pos_list <- py_get llm_data (lit "pos") (PList []) ;;
  gender <- py_get llm_data (lit "gender") (PStr []) ;;
  min_age <- py_get llm_data (lit "minAge") (PStr []) ;;
  max_age <- py_get llm_data (lit "maxAge") (PStr []) ;;
  type_of_bill <- py_get llm_data (lit "typeOfBill") (PStr []) ;;
  service_codes <- expand_service_ranges service_codes ;;
  let age_range :=
    if py_bool min_age || py_bool max_age
    then py_str min_age ++ lit "-" ++ py_str max_age
    else [] in
  diagnosis_string <- safe_join diagnosis_codes ;;
  revenue_string <- safe_join revenue_codes ;;
  pos_string <- safe_join pos_list ;;
  Ok (fold_left
        (fun rows code =>
           rows ++ [output_row service_category code revenue_string gender
                      age_range diagnosis_string pos_string type_of_bill
                      modifier])
        (map (fun code => py_str (PStr code)) service_codes)
        output_rows).

(** The body of the loop over the rows, lines 106-159, as the new value of
    [output_rows]: a row with an empty extraction is skipped ([continue]). *)
Definition process_row (w : world) (row : Series) (output_rows : list dict)
  : result (list dict) * world :=
  let service_category :=
    series_get row (lit "SERVICE_CATEGORY_NAME") (PStr []) in
  let definition := series_get row (lit "DEFINITION") (PStr []) in
  let (llm_data, w') := call_llm w definition in
  (llm_data <- llm_data ;;
   if negb (py_bool llm_data) then Ok output_rows
   else expand_row service_category llm_data output_rows,
   w').

(** The loop of line 104 over the rows of the table, in order; an
    exception ends it. *)
Fixpoint process_rows (w : world) (rows : list Series)
  (output_rows : list dict) : result (list dict) * world :=
  match rows with
  | [] => (Ok output_rows, w)
  | row :: rest =>
      match process_row w row output_rows with
      | (Ok output_rows', w') => process_rows w' rest output_rows'
      | (Raise e, w') => (Raise e, w')
      end
  end.

(** [process_excel], lines 99-165, from the table [df] that [read_excel]
    gave to the table [output_df] that [to_excel] writes. *)
Definition process_excel (w : world) (df : list Series)
  : result DataFrame * world :=
  let (output_rows, w') := process_rows w df [] in
  (output_rows <- output_rows ;; Ok (pd_DataFrame output_rows), w').

(* ================================================================= *)
(** ** Vocabulary of the properties *)

(** The integers from [a] on, [n] of them, in ascending order. *)
Fixpoint count_up (a : Z) (n : nat) : list Z :=
  match n with
  | O => []
  | S k => a :: count_up (a + 1) k
  end.

(** The integers of the inclusive interval from [a] to [b], ascending;
    none when [b < a]. *)
Definition ascending (a b : Z) : list Z := count_up a (Z.to_nat (b - a + 1)).

Definition all_decimal (s : pystr) : bool := forallb is_decimal s.
Definition all_space (s : pystr) : bool := forallb is_space s.

(** The first character of [s], if any, is not a decimal digit. *)
Definition no_digit_ahead (s : pystr) : bool :=
  match s with
  | c :: _ => negb (is_decimal c)
  | [] => true
  end.

(** [s] is an occurrence of the range pattern: an integer [g1], optional
    white space, a hyphen, optional white space, an integer [g2]. *)
Definition range_text (g1 w1 w2 g2 s : pystr) : Prop :=
  g1 <> [] /\ all_decimal g1 = true /\ all_space w1 = true /\
  all_space w2 = true /\ g2 <> [] /\ all_decimal g2 = true /\
  s = g1 ++ w1 ++ [45%N] ++ w2 ++ g2.

(** The pattern occurs at the start of [s]. *)
Definition starts_with_range (s : pystr) : Prop :=
  exists g1 w1 w2 g2 m rest, range_text g1 w1 w2 g2 m /\ s = m ++ rest.

(** The pattern occurs somewhere in [s]. *)
Definition contains_range (s : pystr) : Prop :=
  exists before after, s = before ++ after /\ starts_with_range after.

(** What one token contributes to the output of [expand_service_ranges]. *)
Definition expand_token (code : pyval) : list pystr := expand_code [] code.

(** The outcome of a scanner on the text [s] is not a lack of fuel, and a
    success leaves less text than there was. *)
Definition progresses (out : scan pyval) (s : pystr) : Prop :=
  out <> OutOfFuel
  /\ forall v r, out = Parsed v r -> (length r < length s)%nat.

(** The columns of the output table. *)
Definition output_columns : list pystr :=
  [ lit "ServiceCategory"; lit "ServiceCode"; lit "RevenueCode";
    lit "Gender"; lit "Age"; lit "DiagnosisCode"; lit "POS";
    lit "TypeOfBill"; lit "Modifier"; lit "Minutes"; lit "Billed_Amnt" ].

(** The empty-record sentinel: the empty mapping. *)
Definition is_empty_sentinel (llm_data : pyval) : bool :=
  match llm_data with
  | PDict [] => true
  | _ => false
  end.

Definition is_list (v : pyval) : bool :=
  match v with
  | PList _ => true
  | _ => false
  end.

Definition field_is_list (d : dict) (key : pystr) : bool :=
  match dict_lookup d key with
  | Some v => is_list v
  | None => true
  end.

(** An extraction record: a mapping whose sequence fields, where present,
    are sequences. *)
Definition is_record (llm_data : pyval) : bool :=
  match llm_data with
  | PDict d =>
      field_is_list d (lit "serviceCodes")
      && field_is_list d (lit "diagnosisCodes")
      && field_is_list d (lit "revenueCodes")
      && field_is_list d (lit "pos")
  | _ => false
  end.

(** The number of service codes of a record after expansion. *)
Definition service_code_count (llm_data : pyval) : nat :=
  match py_get llm_data (lit "serviceCodes") (PList []) with
  | Ok service_codes =>
      match expand_service_ranges service_codes with
      | Ok expanded => length expanded
      | Raise _ => O
      end
  | Raise _ => O
  end.

(** The extractions of a run, one per input row, in order: what
    [call_llm] returns for the definition of each row, the service being
    called once per row. *)
Fixpoint run_extractions (w : world) (rows : list Series) : list pyval :=
  match rows with
  | [] => []
  | row :: rest =>
      let (llm_data, w') :=
        call_llm w (series_get row (lit "DEFINITION") (PStr [])) in
      match llm_data with
      | Ok v => v :: run_extractions w' rest
      | Raise _ => []
      end
  end.

(** The record of the end-to-end example. *)
Definition example_record : pyval :=
  PDict
    [ (lit "serviceCodes", PList [PStr (lit "100-102")]);
      (lit "diagnosisCodes", PList [PStr (lit "X1"); PStr (lit "X2")]);
      (lit "revenueCodes", PList []);
      (lit "modifier", PStr (lit "M1"));
      (lit "pos", PList [PStr (lit "11")]);
      (lit "typeOfBill", PStr (lit "131"));
      (lit "gender", PStr (lit "F"));
      (lit "minAge", PStr (lit "18"));
      (lit "maxAge", PStr (lit "65")) ].

(** The row of the output table the example gives for the service code
    [code] and the service category [service_category]. *)
Definition example_output (service_category : pyval) (code : string)
  : list pyval :=
  [ service_category; PStr (lit code); PStr []; PStr (lit "F");
    PStr (lit "18-65"); PStr (lit "X1,X2"); PStr (lit "11");
    PStr (lit "131"); PStr (lit "M1"); PInt 1; PInt 100 ].

(** The service codes of an extraction after expansion, in order; none
    when the extraction has none to read. *)
Definition expanded_codes (llm_data : pyval) : list pystr :=
  match py_get llm_data (lit "serviceCodes") (PList []) with
  | Ok service_codes =>
      match expand_service_ranges service_codes with
      | Ok expanded => expanded
      | Raise _ => []
      end
  | Raise _ => []
  end.

(** The cells of a row of the input table that the pipeline reads. *)
Definition category_of (row : Series) : pyval :=
  series_get row (lit "SERVICE_CATEGORY_NAME") (PStr []).

Definition definition_of (row : Series) : pyval :=
  series_get row (lit "DEFINITION") (PStr []).

(** The cells of an output dict, in the order of the output columns. *)
Definition cells_of (record : dict) : list pyval :=
  map (fun col => series_get record col (PFloat (lit "nan"))) output_columns.

(** The output dicts of one input row: one per expanded service code, in
    order, equal in everything but the service code. *)
Definition fanout (service_category llm_data : pyval) (rows : list dict)
  : Prop :=
  exists revenue_string gender age_range diagnosis_string pos_string
         type_of_bill modifier,
    rows
    = map (fun code =>
             output_row service_category code revenue_string gender
               age_range diagnosis_string pos_string type_of_bill modifier)
        (expanded_codes llm_data).

(** The state of the world after one call of the service per row, in the
    order of the rows, each with the prompt of the definition of its row. *)
Fixpoint world_after (w : world) (rows : list Series) : world :=
  match rows with
  | [] => w
  | row :: rest =>
      world_after (snd (ollama_chat w (prompt (definition_of row)))) rest
  end.

(** The backtick, the fence of three backticks, and the texts without. *)
Definition backtick : N := 96%N.

Definition fence : pystr := [backtick; backtick; backtick].

Definition tick_free (s : pystr) : bool :=
  forallb (fun c => negb (c =? backtick)%N) s.

(** The number of backticks [s] starts with. *)
Fixpoint ticks (s : pystr) : nat :=
  match s with
  | c :: s' => if (c =? backtick)%N then S (ticks s') else O
  | [] => O
  end.

(** A fence occurs somewhere in [s]. *)
Fixpoint has_fence (s : pystr) : bool :=
  match s with
  | [] => false
  | _ :: s' => starts_with fence s || has_fence s'
  end.

(** Whether a value is a string. *)
Definition is_string (v : pyval) : bool :=
  match v with
  | PStr _ => true
  | _ => false
  end.

(* ================================================================= *)
(** ** Tactics *)

(** Replaces the value of a digit given by its code point by its
    evaluation. *)
Ltac eval_digit :=
  match goal with
  | |- context [decimal_value ?c] =>
      let v := eval vm_compute in (decimal_value c) in
      change (decimal_value c) with v
  end.

(** From [bind r k = Ok _]: [r] is [Ok _]. *)
Ltac bind_inv H :=
  match type of H with
  | bind ?r _ = Ok _ =>
      let E := fresh "E" in
      destruct r eqn:E; [cbn [bind] in H | discriminate H]
  end.

(* ================================================================= *)
(** ** Strings: runs of a class of characters *)

Lemma span_app (p : N -> bool) (a r : pystr) :
  forallb p a = true ->
  span p (a ++ r) = (a ++ fst (span p r), snd (span p r)).
Proof.
  induction a as [|c a IH]; simpl; intros H.
  - now destruct (span p r).
  - apply andb_prop in H as [Hc Ha].
    rewrite Hc, (IH Ha). reflexivity.
Qed.

Lemma span_stop (p : N -> bool) (c : N) (r : pystr) :
  p c = false -> span p (c :: r) = ([], c :: r).
Proof. intros H. simpl. now rewrite H. Qed.

Lemma span_spec (p : N -> bool) (s : pystr) :
  s = fst (span p s) ++ snd (span p s)
  /\ forallb p (fst (span p s)) = true
  /\ match snd (span p s) with c :: _ => p c = false | [] => True end.
Proof.
  induction s as [|c s IH]; simpl.
  - auto.
  - destruct (p c) eqn:Hc.
    + destruct (span p s) as [a b]. simpl in *.
      destruct IH as (E & F & G). rewrite Hc. repeat split; auto.
      now rewrite E at 1.
    + simpl. auto.
Qed.

Lemma drop_while_app (p : N -> bool) (a r : pystr) :
  forallb p a = true -> drop_while p (a ++ r) = drop_while p r.
Proof.
  induction a as [|c a IH]; simpl; intros H; [reflexivity|].
  apply andb_prop in H as [Hc Ha]. now rewrite Hc, IH.
Qed.

Lemma drop_while_spec (p : N -> bool) (s : pystr) :
  exists a, s = a ++ drop_while p s /\ forallb p a = true
            /\ match drop_while p s with c :: _ => p c = false | [] => True end.
Proof.
  induction s as [|c s (a & E & F & G)]; simpl.
  - exists []. auto.
  - destruct (p c) eqn:Hc.
    + exists (c :: a). simpl. rewrite Hc. repeat split; auto. now rewrite <- E.
    + exists []. simpl. auto.
Qed.

(** No white space character is a decimal digit. *)
Lemma space_not_decimal (c : N) : is_space c = true -> is_decimal c = false.
Proof.
  unfold is_space. simpl. intros H.
  repeat (apply orb_prop in H as [H|H];
          [apply N.eqb_eq in H; subst c; reflexivity|]).
  discriminate.
Qed.

Lemma decimal_not_space (c : N) : is_decimal c = true -> is_space c = false.
Proof.
  intros H. destruct (is_space c) eqn:E; [|reflexivity].
  apply space_not_decimal in E. congruence.
Qed.

(* ================================================================= *)
(** ** Integers and their decimal text *)

Lemma int_of_digits_fold (s : pystr) : int_of_digits s = digits_fold 0 s.
Proof. reflexivity. Qed.

Lemma digits_fold_nonneg (s : pystr) (acc : Z) :
  0 <= acc -> 0 <= digits_fold acc s.
Proof.
  revert acc. induction s as [|c s IH]; intros acc H; [assumption|].
  apply IH. destruct (decimal_value c) as [d|];
    [pose proof (N2Z.is_nonneg d)|]; lia.
Qed.

Lemma int_of_digits_nonneg (s : pystr) : 0 <= int_of_digits s.
Proof. rewrite int_of_digits_fold. apply digits_fold_nonneg. lia. Qed.

(** A leading zero does not change the integer read. *)
Lemma int_of_digits_zero (s : pystr) :
  int_of_digits (48%N :: s) = int_of_digits s.
Proof. reflexivity. Qed.

Lemma digits_of_uint_decimal (u : Decimal.uint) :
  all_decimal (digits_of_uint u) = true.
Proof. induction u; simpl; auto. Qed.

Lemma digits_fold_cons (acc : Z) (c : N) (s : pystr) :
  digits_fold acc (c :: s)
  = digits_fold
      (10 * acc + match decimal_value c with Some d => Z.of_N d | None => 0 end)
      s.
Proof. reflexivity. Qed.

Lemma digits_fold_of_uint_acc (u : Decimal.uint) (acc : positive) :
  digits_fold (Z.pos acc) (digits_of_uint u) = Z.pos (Pos.of_uint_acc u acc).
Proof.
  revert acc.
  induction u; intros acc; cbn [digits_of_uint Pos.of_uint_acc];
    [reflexivity | rewrite digits_fold_cons, <- IHu; eval_digit; f_equal;
                   cbv beta iota; lia ..].
Qed.

Lemma digits_fold_of_uint (u : Decimal.uint) :
  digits_fold 0 (digits_of_uint u) = Z.of_N (Pos.of_uint u).
Proof.
  induction u; cbn [digits_of_uint Pos.of_uint];
    [reflexivity | rewrite digits_fold_cons; eval_digit ..];
    [exact IHu | apply (digits_fold_of_uint_acc u) ..].
Qed.

(** The text of a natural number is a non-empty run of digits, and reading
    it back gives the number. *)
Lemma str_of_int_digits (n : Z) :
  0 <= n ->
  str_of_int n <> [] /\ all_decimal (str_of_int n) = true
  /\ int_of_digits (str_of_int n) = n.
Proof.
  intros H. unfold str_of_int. destruct n as [|p|p]; [| |lia].
  - simpl. repeat split; discriminate.
  - simpl. repeat split.
    + pose proof (DecimalPos.Unsigned.to_uint_nonnil p) as Hn.
      destruct (Pos.to_uint p); simpl; congruence.
    + apply digits_of_uint_decimal.
    + rewrite int_of_digits_fold, digits_fold_of_uint.
      now rewrite DecimalPos.Unsigned.of_to.
Qed.

Lemma count_up_range (a : Z) (n : nat) :
  map (fun i => a + Z.of_nat i) (seq 0 n) = count_up a n.
Proof.
  revert a. induction n as [|n IH]; intros a; simpl; [reflexivity|].
  f_equal; [lia|]. rewrite <- seq_shift, map_map, <- IH.
  apply map_ext. intros i. lia.
Qed.

(** [range(a, b + 1)] lists the interval from [a] to [b] in ascending
    order. *)
Lemma py_range_ascending (a b : Z) : py_range a (b + 1) = ascending a b.
Proof.
  unfold py_range, ascending. rewrite count_up_range.
  f_equal. f_equal. lia.
Qed.

Lemma count_up_nth (a : Z) (n i : nat) :
  (i < n)%nat -> nth_error (count_up a n) i = Some (a + Z.of_nat i).
Proof.
  revert a i. induction n as [|n IH]; intros a i H; [lia|].
  destruct i as [|i]; simpl.
  - f_equal. lia.
  - rewrite IH by lia. f_equal. lia.
Qed.

Lemma count_up_length (a : Z) (n : nat) : length (count_up a n) = n.
Proof. revert a. induction n; intros a; simpl; congruence. Qed.

(* ================================================================= *)
(** ** The range pattern *)

(** A text that starts with an occurrence of the pattern is matched;
    group 1 is the first integer and group 2 the second one, extended by the
    digits that follow it. *)
Lemma re_match_range_prefix (g1 w1 w2 g2 m rest : pystr) :
  range_text g1 w1 w2 g2 m ->
  re_match_range (m ++ rest)
  = Some (g1, g2 ++ fst (span is_decimal rest)).
Proof.
  intros (N1 & D1 & W1 & W2 & N2 & D2 & ->).
  unfold re_match_range.
  repeat rewrite <- app_assoc.
  rewrite (span_app is_decimal g1) by exact D1.
  assert (H1 : span is_decimal (w1 ++ [45%N] ++ w2 ++ g2 ++ rest)
               = ([], w1 ++ [45%N] ++ w2 ++ g2 ++ rest)).
  { destruct w1 as [|c w1]; [reflexivity|].
    simpl in W1. apply andb_prop in W1 as [Hc _].
    apply span_stop. now apply space_not_decimal. }
  rewrite H1. cbn [fst snd]. rewrite app_nil_r.
  destruct g1 as [|d g1]; [congruence|].
  rewrite (drop_while_app is_space w1) by exact W1.
  cbn [app drop_while]. change (is_space 45) with false. cbv iota.
  change (45 =? 45)%N with true. cbv iota.
  rewrite (drop_while_app is_space w2) by exact W2.
  assert (H2 : drop_while is_space (g2 ++ rest) = g2 ++ rest).
  { destruct g2 as [|c g2]; [congruence|].
    simpl in D2. apply andb_prop in D2 as [Hc _].
    simpl. now rewrite (decimal_not_space c Hc). }
  rewrite H2, (span_app is_decimal g2) by exact D2.
  destruct g2 as [|c g2]; [congruence|]. reflexivity.
Qed.

(** A matched text starts with an occurrence of the pattern, made of the
    two groups and of the white space and hyphen between them. *)
Lemma re_match_range_inv (s g1 g2 : pystr) :
  re_match_range s = Some (g1, g2) ->
  exists w1 w2 m rest,
    range_text g1 w1 w2 g2 m /\ s = m ++ rest
    /\ no_digit_ahead rest = true.
Proof.
  unfold re_match_range. intros H.
  destruct (span_spec is_decimal s) as (E1 & F1 & _).
  destruct (span is_decimal s) as [a r1]. cbn [fst snd] in *.
  destruct a as [|d a]; [discriminate|].
  destruct (drop_while_spec is_space r1) as (w1 & E2 & F2 & _).
  destruct (drop_while is_space r1) as [|c r2]; [discriminate|].
  destruct (c =? 45)%N eqn:Hc; [|discriminate].
  apply N.eqb_eq in Hc. subst c.
  destruct (drop_while_spec is_space r2) as (w2 & E3 & F3 & _).
  destruct (span_spec is_decimal (drop_while is_space r2)) as (E4 & F4 & G4).
  destruct (span is_decimal (drop_while is_space r2)) as [b r3].
  cbn [fst snd] in *.
  destruct b as [|e b]; [discriminate|].
  injection H as <- <-.
  exists w1, w2, ((d :: a) ++ w1 ++ [45%N] ++ w2 ++ e :: b), r3.
  split; [|split].
  - unfold range_text, all_decimal, all_space.
    repeat split; try assumption; discriminate.
  - rewrite E1, E2, E3, E4. now repeat rewrite <- app_assoc.
  - unfold no_digit_ahead. destruct r3; [reflexivity|]. now rewrite G4.
Qed.

(** The match succeeds exactly on the texts that start with an occurrence
    of the pattern. *)
Lemma re_match_range_iff (s : pystr) :
  re_match_range s <> None <-> starts_with_range s.
Proof.
  split.
  - destruct (re_match_range s) as [[g1 g2]|] eqn:E; [|congruence].
    intros _.
    apply re_match_range_inv in E as (w1 & w2 & m & rest & R & -> & _).
    now exists g1, w1, w2, g2, m, rest.
  - intros (g1 & w1 & w2 & g2 & m & rest & R & ->).
    now rewrite (re_match_range_prefix _ _ _ _ _ rest R).
Qed.

(** A run of digits alone is not matched. *)
Lemma re_match_range_digits (s : pystr) :
  all_decimal s = true -> re_match_range s = None.
Proof.
  intros H. unfold re_match_range.
  rewrite <- (app_nil_r s), (span_app is_decimal s []) by exact H.
  simpl. rewrite app_nil_r. now destruct s.
Qed.

(* ================================================================= *)
(** ** [expand_service_ranges] as a token-by-token expansion *)

Lemma append_range_app (expanded : list pystr) (a b : Z) :
  append_range expanded a b
  = expanded ++ map str_of_int (py_range a (b + 1)).
Proof.
  unfold append_range. generalize (py_range a (b + 1)) as l.
  intros l. revert expanded.
  induction l as [|n l IH]; intros expanded; simpl.
  - now rewrite app_nil_r.
  - now rewrite IH, <- app_assoc.
Qed.

Lemma expand_code_app (expanded : list pystr) (code : pyval) :
  expand_code expanded code = expanded ++ expand_token code.
Proof.
  unfold expand_token, expand_code.
  destruct (re_match_range (py_str code)) as [[g1 g2]|]; [|reflexivity].
  now rewrite !append_range_app.
Qed.

Lemma fold_expand_code (codes : list pyval) (expanded : list pystr) :
  fold_left expand_code codes expanded
  = expanded ++ flat_map expand_token codes.
Proof.
  revert expanded. induction codes as [|c codes IH]; intros expanded; simpl.
  - now rewrite app_nil_r.
  - now rewrite IH, expand_code_app, <- app_assoc.
Qed.

Lemma expand_service_ranges_list (codes : list pyval) :
  expand_service_ranges (PList codes) = Ok (flat_map expand_token codes).
Proof.
  unfold expand_service_ranges. simpl. now rewrite fold_expand_code.
Qed.

Lemma expand_token_matched (code : pyval) (g1 g2 : pystr) :
  re_match_range (py_str code) = Some (g1, g2) ->
  expand_token code
  = map str_of_int (ascending (int_of_digits g1) (int_of_digits g2)).
Proof.
  intros H. unfold expand_token, expand_code. rewrite H.
  now rewrite append_range_app, py_range_ascending.
Qed.

Lemma expand_token_unmatched (code : pyval) :
  re_match_range (py_str code) = None -> expand_token code = [py_str code].
Proof. intros H. unfold expand_token, expand_code. now rewrite H. Qed.

Lemma count_up_ge (a n : Z) (k : nat) : In n (count_up a k) -> a <= n.
Proof.
  revert a. induction k as [|k IH]; intros a; simpl; [tauto|].
  intros [<-|H]; [lia|]. apply IH in H. lia.
Qed.

(** Every string of the output is left as it is by a second expansion. *)
Lemma expand_token_fixed (code : pyval) (out : pystr) :
  In out (expand_token code) -> expand_token (PStr out) = [out].
Proof.
  intros H. apply expand_token_unmatched. cbn [py_str].
  destruct (re_match_range (py_str code)) as [[g1 g2]|] eqn:E.
  - rewrite (expand_token_matched _ _ _ E) in H.
    apply in_map_iff in H as (n & <- & Hn).
    apply re_match_range_digits, str_of_int_digits.
    apply count_up_ge in Hn. pose proof (int_of_digits_nonneg g1). lia.
  - rewrite (expand_token_unmatched _ E) in H.
    destruct H as [<-|[]]. exact E.
Qed.

Lemma expand_service_ranges_single (code : pyval) :
  expand_service_ranges (PList [code]) = Ok (expand_token code).
Proof.
  rewrite expand_service_ranges_list. cbn [flat_map]. now rewrite app_nil_r.
Qed.

(* ================================================================= *)
(** ** Properties of the utility functions *)

(** C9. [safe_join] gives the empty string for an absent input ([None])
    and for an empty sequence; for a non-empty sequence it gives the string
    forms of the elements in the order of the input, with one comma and
    nothing else between two neighbours; it gives [A,B,3] for the sequence
    of the strings [A] and [B] and the integer 3.  The sequence is the one
    a loop draws from the input: the elements of a list, the characters of
    a string, the keys of a mapping. *)
Theorem safe_join_contract :
  safe_join PNone = Ok []
  /\ (forall values items,
        py_iter values = Ok items ->
        safe_join values
        = Ok match items with
             | [] => []
             | v :: rest =>
                 py_str v ++ flat_map (fun x => 44%N :: py_str x) rest
             end)
  /\ safe_join (PList [PStr (lit "A"); PStr (lit "B"); PInt 3])
     = Ok (lit "A,B,3").
Proof.
  split; [reflexivity|]. split; [|reflexivity].
  intros values items H.
  assert (J : forall v rest,
             str_join (lit ",") (map py_str (v :: rest))
             = py_str v ++ flat_map (fun x => 44%N :: py_str x) rest).
  { intros v rest. revert v. induction rest as [|x rest IH]; intros v.
    - simpl. now rewrite app_nil_r.
    - change (str_join (lit ",") (map py_str (v :: x :: rest)))
        with (py_str v ++ lit ","
              ++ str_join (lit ",") (map py_str (x :: rest))).
      rewrite IH. reflexivity. }
  unfold safe_join. rewrite H.
  destruct values as [| | | | s | l | d]; try discriminate H;
    simpl in H; injection H as <-.
  - destruct s as [|c s]; [reflexivity|].
    cbn [py_bool negb bind]. f_equal. apply (J (PStr [c])).
  - destruct l as [|v l]; [reflexivity|].
    cbn [py_bool negb bind]. f_equal. apply J.
  - destruct d as [|[k v] d]; [reflexivity|].
    cbn [py_bool negb bind]. f_equal. apply (J (PStr k)).
Qed.

(** C4. [expand_service_ranges] keeps the order of the tokens: the output
    for a sequence is the output for its first part followed by the output
    for the rest.  A token that does not start with the range pattern is
    emitted unchanged, as a string.  A token [A-B] with integers [A <= B]
    is replaced, where it stands, by the decimal strings of [A], [A+1], ...,
    [B] in ascending order. *)
Theorem expand_service_ranges_order :
  (forall before after,
      exists out1 out2,
        expand_service_ranges (PList before) = Ok out1
        /\ expand_service_ranges (PList after) = Ok out2
        /\ expand_service_ranges (PList (before ++ after)) = Ok (out1 ++ out2))
  /\ (forall code,
        ~ starts_with_range (py_str code) ->
        expand_service_ranges (PList [code]) = Ok [py_str code])
  /\ (forall code A B,
        0 <= A <= B ->
        py_str code = str_of_int A ++ [45%N] ++ str_of_int B ->
        expand_service_ranges (PList [code])
        = Ok (map str_of_int (ascending A B))).
Proof.
  split; [|split].
  - intros before after.
    exists (flat_map expand_token before), (flat_map expand_token after).
    rewrite !expand_service_ranges_list, flat_map_app. auto.
  - intros code H. rewrite !expand_service_ranges_single. f_equal.
    apply expand_token_unmatched.
    destruct (re_match_range (py_str code)) eqn:E; [|reflexivity].
    exfalso. apply H, re_match_range_iff. congruence.
  - intros code A B HAB E. rewrite !expand_service_ranges_single.
    destruct (str_of_int_digits A) as (NA & DA & IA); [lia|].
    destruct (str_of_int_digits B) as (NB & DB & IB); [lia|].
    assert (R : range_text (str_of_int A) [] [] (str_of_int B) (py_str code)).
    { unfold range_text. repeat split; auto. }
    pose proof (re_match_range_prefix _ _ _ _ _ [] R) as M.
    rewrite !app_nil_r in M.
    rewrite (expand_token_matched _ _ _ M), IA, IB. reflexivity.
Qed.

(** C10. A matched token is written again from the integers read in it:
    the output is the decimal strings of the interval between the two
    integers of the match, so that leading zeros are lost ([007-009] gives
    [7], [8], [9]), and what follows the range in the token is dropped. *)
Theorem range_token_reserialized :
  (forall code g1 g2,
      re_match_range (py_str code) = Some (g1, g2) ->
      expand_service_ranges (PList [code])
      = Ok (map str_of_int (ascending (int_of_digits g1) (int_of_digits g2))))
  /\ expand_service_ranges (PList [PStr (lit "007-009")])
     = Ok [lit "7"; lit "8"; lit "9"]
  /\ (forall g1 g2,
        g1 <> [] -> all_decimal g1 = true ->
        g2 <> [] -> all_decimal g2 = true ->
        expand_service_ranges
          (PList [PStr ((48%N :: g1) ++ [45%N] ++ 48%N :: g2)])
        = expand_service_ranges (PList [PStr (g1 ++ [45%N] ++ g2)]))
  /\ (forall g1 w1 w2 g2 m rest,
        range_text g1 w1 w2 g2 m ->
        no_digit_ahead rest = true ->
        expand_service_ranges (PList [PStr (m ++ rest)])
        = expand_service_ranges (PList [PStr m])).
Proof.
  split; [|split; [|split]].
  - intros code g1 g2 M. rewrite !expand_service_ranges_single. f_equal.
    now apply expand_token_matched.
  - reflexivity.
  - intros g1 g2 N1 D1 N2 D2. rewrite !expand_service_ranges_single.
    assert (R : range_text g1 [] [] g2 (g1 ++ [45%N] ++ g2)).
    { unfold range_text. repeat split; auto. }
    assert (R0 : range_text (48%N :: g1) [] [] (48%N :: g2)
                   ((48%N :: g1) ++ [45%N] ++ 48%N :: g2)).
    { unfold range_text. repeat split; auto; try discriminate;
        unfold all_decimal; simpl; assumption. }
    pose proof (re_match_range_prefix _ _ _ _ _ [] R) as M.
    pose proof (re_match_range_prefix _ _ _ _ _ [] R0) as M0.
    rewrite !app_nil_r in M, M0.
    rewrite (expand_token_matched (PStr _) _ _ M).
    rewrite (expand_token_matched (PStr _) _ _ M0).
    now rewrite !int_of_digits_zero.
  - intros g1 w1 w2 g2 m rest R Hrest. rewrite !expand_service_ranges_single.
    pose proof (re_match_range_prefix _ _ _ _ _ rest R) as M.
    pose proof (re_match_range_prefix _ _ _ _ _ [] R) as M0.
    rewrite app_nil_r in M0.
    assert (S0 : fst (span is_decimal rest) = []).
    { destruct rest as [|c rest]; [reflexivity|]. simpl in *.
      destruct (is_decimal c); [discriminate|reflexivity]. }
    rewrite S0 in M. simpl in M0.
    rewrite (expand_token_matched (PStr _) _ _ M).
    rewrite (expand_token_matched (PStr _) _ _ M0). reflexivity.
Qed.

(** C3, as the code has it.  The pattern is looked for at the start of the
    token only: a token whose string form starts with an occurrence of the
    pattern is expanded into the interval between the first integer and the
    second one (with the digits that follow it), and a token that does not
    start with one is emitted unchanged, wherever else the pattern occurs in
    it. *)
Theorem range_prefix_expanded :
  forall code,
    (forall g1 w1 w2 g2 m rest,
        range_text g1 w1 w2 g2 m ->
        py_str code = m ++ rest ->
        expand_service_ranges (PList [code])
        = Ok (map str_of_int
                (ascending (int_of_digits g1)
                   (int_of_digits (g2 ++ fst (span is_decimal rest))))))
    /\ (~ starts_with_range (py_str code) ->
        expand_service_ranges (PList [code]) = Ok [py_str code]).
Proof.
  intros code. split.
  - intros g1 w1 w2 g2 m rest R E. rewrite !expand_service_ranges_single.
    f_equal. apply expand_token_matched.
    rewrite E. now apply re_match_range_prefix with (w1 := w1) (w2 := w2).
  - intros H. rewrite !expand_service_ranges_single. f_equal.
    apply expand_token_unmatched.
    destruct (re_match_range (py_str code)) eqn:E; [|reflexivity].
    exfalso. apply H, re_match_range_iff. congruence.
Qed.

Lemma flat_map_fixed (out : list pystr) :
  (forall o, In o out -> expand_token (PStr o) = [o]) ->
  flat_map expand_token (map PStr out) = out.
Proof.
  induction out as [|o out IH]; intros H; simpl; [reflexivity|].
  rewrite (H o) by now left. simpl. f_equal. apply IH.
  intros o' Ho. apply H. now right.
Qed.

(** C8. [expand_service_ranges] is idempotent: expanding the output of an
    expansion gives that output again. *)
Theorem expand_service_ranges_idempotent :
  forall codes,
    exists out,
      expand_service_ranges (PList codes) = Ok out
      /\ expand_service_ranges (PList (map PStr out)) = Ok out.
Proof.
  intros codes. exists (flat_map expand_token codes).
  rewrite !expand_service_ranges_list. split; [reflexivity|].
  f_equal. apply flat_map_fixed. intros o Ho.
  apply in_flat_map in Ho as (code & _ & Ho).
  now apply expand_token_fixed with (code := code).
Qed.

(* ================================================================= *)
(** ** The decoder never runs out of fuel *)

Lemma drop_while_length (p : N -> bool) (s : pystr) :
  (length (drop_while p s) <= length s)%nat.
Proof.
  induction s as [|c s IH]; simpl; [lia|]. destruct (p c); simpl; lia.
Qed.

Lemma span_length (p : N -> bool) (s : pystr) :
  (length (snd (span p s)) <= length s)%nat.
Proof.
  induction s as [|c s IH]; simpl; [lia|].
  destruct (p c); [|simpl; lia]. destruct (span p s). simpl in *. lia.
Qed.

Lemma skip_ws_length (s : pystr) : (length (skip_ws s) <= length s)%nat.
Proof. apply drop_while_length. Qed.

Lemma scanstring_from_shorter (s : pystr) :
  forall st high acc,
    scanstring_from s st high acc <> OutOfFuel
    /\ forall v r,
        scanstring_from s st high acc = Parsed v r ->
        (length r < length s)%nat.
Proof.
  induction s as [|c s IH]; intros st high acc.
  - simpl. split; [discriminate|]. intros v r H. discriminate H.
  - assert (G : forall st' high' acc',
               scanstring_from s st' high' acc' <> OutOfFuel
               /\ forall v r,
                   scanstring_from s st' high' acc' = Parsed v r ->
                   (length r < length (c :: s))%nat).
    { intros st' high' acc'. destruct (IH st' high' acc') as [A B].
      split; [exact A|]. intros v r H. apply B in H. simpl. lia. }
    cbn [scanstring_from].
    repeat match goal with
           | |- context [if ?b then _ else _] => destruct b
           | |- context [match ?x with _ => _ end] => destruct x
           end;
      try apply G;
      (split; [discriminate|]); intros v0 r0 H0; try discriminate H0;
      injection H0 as <- <-; simpl; lia.
Qed.

Lemma take_sign_length (s : pystr) :
  (length (snd (take_sign s)) <= length s)%nat.
Proof.
  destruct s as [|c t]; simpl; [lia|]. destruct (c =? 45)%N; simpl; lia.
Qed.

Lemma take_int_shorter (s int_part r : pystr) :
  take_int s = Some (int_part, r) -> (length r < length s)%nat.
Proof.
  destruct s as [|c t]; simpl; [discriminate|].
  destruct (is_ascii_digit c); [|discriminate].
  destruct (c =? 48)%N.
  - intros H. injection H as <- <-. lia.
  - pose proof (span_length is_ascii_digit t) as L.
    destruct (span is_ascii_digit t). intros H. injection H as <- <-.
    simpl in L. lia.
Qed.

Lemma take_frac_length (s : pystr) :
  (length (snd (take_frac s)) <= length s)%nat.
Proof.
  destruct s as [|p u]; simpl; [lia|]. destruct (p =? 46)%N; simpl; [|lia].
  pose proof (span_length is_ascii_digit u) as L.
  destruct (span is_ascii_digit u) as [fs r]. simpl in L.
  destruct fs; simpl; lia.
Qed.

Lemma take_exp_length (s : pystr) :
  (length (snd (take_exp s)) <= length s)%nat.
Proof.
  destruct s as [|e u]; simpl; [lia|].
  destruct ((e =? 101)%N || (e =? 69)%N); simpl; [|lia].
  assert (S : forall u', (length u' <= length u)%nat ->
              forall esign : pystr,
                (length
                   (snd (let (es, r) := span is_ascii_digit u' in
                         match es with
                         | [] => ([], e :: u)
                         | _ :: _ => (e :: esign ++ es, r)
                         end)) <= S (length u))%nat).
  { intros u' Hu esign. pose proof (span_length is_ascii_digit u') as L.
    destruct (span is_ascii_digit u') as [es r]. simpl in L.
    destruct es; simpl; lia. }
  destruct u as [|g x]; [apply S; simpl; lia|].
  destruct ((g =? 43)%N || (g =? 45)%N); apply S; simpl; lia.
Qed.

Lemma match_number_shorter (s text r : pystr) (is_float : bool) :
  match_number s = Some (is_float, text, r) -> (length r < length s)%nat.
Proof.
  unfold match_number. pose proof (take_sign_length s) as L0.
  destruct (take_sign s) as [sign s1]. cbn [snd] in L0.
  destruct (take_int s1) as [[int_part r1]|] eqn:E; [|discriminate].
  apply take_int_shorter in E.
  pose proof (take_frac_length r1) as L1.
  destruct (take_frac r1) as [frac r2]. cbn [snd] in L1.
  pose proof (take_exp_length r2) as L2.
  destruct (take_exp r2) as [expo r3]. cbn [snd] in L2.
  intros H. injection H as _ _ <-. lia.
Qed.

Lemma progresses_failed (s : pystr) : progresses Failed s.
Proof. split; [discriminate|]. intros v r H. discriminate H. Qed.

Lemma progresses_parsed (v : pyval) (r s : pystr) :
  (length r < length s)%nat -> progresses (Parsed v r) s.
Proof.
  intros L. split; [discriminate|]. intros v' r' H. now injection H as <- <-.
Qed.

Lemma progresses_weaken (out : scan pyval) (s s' : pystr) :
  progresses out s -> (length s <= length s')%nat -> progresses out s'.
Proof.
  intros [A B] L. split; [exact A|]. intros v r H. apply B in H. lia.
Qed.

(** With two units of fuel per character and one more, the scanner
    returns, and it consumes at least one character when it succeeds. *)
Lemma scan_fuel (fuel : nat) :
  (forall s, (2 * length s < fuel)%nat -> progresses (scan_once fuel s) s)
  /\ (forall s acc,
        (2 * length s + 1 < fuel)%nat -> progresses (parse_array fuel s acc) s)
  /\ (forall s acc,
        (2 * length s + 1 < fuel)%nat ->
        progresses (parse_object fuel s acc) s).
Proof.
  induction fuel as [|f (IHs & IHa & IHo)]; [repeat split; lia|].
  split; [|split].
  - intros s F. cbn [scan_once]. destruct s as [|c s1];
      [apply progresses_failed|]. cbn [length] in F.
    destruct (c =? 34)%N.
    { destruct (scanstring_from_shorter s1 SPlain None []) as [A B].
      unfold scanstring. destruct (scanstring_from s1 SPlain None []) eqn:E.
      - apply progresses_parsed. specialize (B _ _ eq_refl). simpl. lia.
      - apply progresses_failed.
      - congruence. }
    destruct (c =? 123)%N.
    { pose proof (skip_ws_length s1) as L.
      destruct (skip_ws s1) as [|c' rest].
      - apply progresses_weaken with (s := []); [|simpl; lia].
        apply IHo. simpl. lia.
      - cbn [length] in L. destruct (c' =? 125)%N.
        + apply progresses_parsed. simpl. lia.
        + apply progresses_weaken with (s := c' :: rest); [|simpl; lia].
          apply IHo. simpl. lia. }
    destruct (c =? 91)%N.
    { pose proof (skip_ws_length s1) as L.
      destruct (skip_ws s1) as [|c' rest].
      - apply progresses_weaken with (s := []); [|simpl; lia].
        apply IHa. simpl. lia.
      - cbn [length] in L. destruct (c' =? 93)%N.
        + apply progresses_parsed. simpl. lia.
        + apply progresses_weaken with (s := c' :: rest); [|simpl; lia].
          apply IHa. simpl. lia. }
    repeat match goal with
           | |- context [if starts_with ?p ?t then _ else _] =>
               destruct (starts_with p t);
               [apply progresses_parsed; rewrite length_skipn; simpl; lia|]
           end.
    destruct (match_number (c :: s1)) as [[[is_float text] rest]|] eqn:E;
      [|apply progresses_failed].
    apply progresses_parsed. now apply match_number_shorter in E.
  - intros s acc F. cbn [parse_array].
    destruct (IHs s) as [A B]; [lia|].
    destruct (scan_once f s) as [v rest| |];
      [|apply progresses_failed|congruence].
    specialize (B _ _ eq_refl).
    pose proof (skip_ws_length rest) as L.
    destruct (skip_ws rest) as [|c rest']; [apply progresses_failed|].
    cbn [length] in L.
    destruct (c =? 93)%N; [apply progresses_parsed; lia|].
    destruct (c =? 44)%N; [|apply progresses_failed].
    pose proof (skip_ws_length rest') as L'.
    apply progresses_weaken with (s := skip_ws rest'); [|lia].
    apply IHa. lia.
  - intros s acc F. cbn [parse_object].
    destruct s as [|q s1]; [apply progresses_failed|]. cbn [length] in F.
    destruct (q =? 34)%N; [|apply progresses_failed].
    destruct (scanstring_from_shorter s1 SPlain None []) as [A B].
    unfold scanstring.
    destruct (scanstring_from s1 SPlain None []) as [key rest| |];
      [|apply progresses_failed|congruence].
    specialize (B _ _ eq_refl).
    pose proof (skip_ws_length rest) as L.
    destruct (skip_ws rest) as [|c rest1]; [apply progresses_failed|].
    cbn [length] in L.
    destruct (c =? 58)%N; [|apply progresses_failed].
    pose proof (skip_ws_length rest1) as L1.
    destruct (IHs (skip_ws rest1)) as [A2 B2]; [lia|].
    destruct (scan_once f (skip_ws rest1)) as [v rest2| |];
      [|apply progresses_failed|congruence].
    specialize (B2 _ _ eq_refl).
    pose proof (skip_ws_length rest2) as L2.
    destruct (skip_ws rest2) as [|c' rest3]; [apply progresses_failed|].
    cbn [length] in L2.
    destruct (c' =? 125)%N; [apply progresses_parsed; simpl; lia|].
    destruct (c' =? 44)%N; [|apply progresses_failed].
    pose proof (skip_ws_length rest3) as L3.
    apply progresses_weaken with (s := skip_ws rest3); [|simpl; lia].
    apply IHo. lia.
Qed.

(** [json_loads] raises only when the text is not a JSON document: its
    scanner never runs out of fuel. *)
Lemma scan_once_fuel (s : pystr) :
  scan_once (2 * length s + 1) (skip_ws s) <> OutOfFuel.
Proof.
  pose proof (skip_ws_length s) as L.
  apply (proj1 (scan_fuel (2 * length s + 1))). lia.
Qed.

(* ================================================================= *)
(** ** [call_llm] *)

Lemma call_llm_world (w : world) (definition : pyval) :
  snd (call_llm w definition) = snd (ollama_chat w (prompt definition)).
Proof. unfold call_llm. now destruct (ollama_chat w (prompt definition)). Qed.

Lemma call_llm_value (w : world) (definition : pyval) :
  fst (call_llm w definition)
  = try_except
      (content <- fst (ollama_chat w (prompt definition)) ;;
       json_loads (strip_fences content))
      (fun _ => Ok (PDict [])).
Proof. unfold call_llm. now destruct (ollama_chat w (prompt definition)). Qed.

(** [call_llm] returns a value, whatever the service does. *)
Lemma call_llm_returns (w : world) (definition : pyval) :
  exists llm_data, fst (call_llm w definition) = Ok llm_data.
Proof.
  rewrite call_llm_value.
  destruct (fst (ollama_chat w (prompt definition))) as [content|e]; simpl.
  - destruct (json_loads (strip_fences content)); simpl; eauto.
  - eauto.
Qed.

(** C1, as the code has it.  [call_llm] calls the service once and never
    raises.  It returns the empty mapping when the service call raises and
    when the text of the response, once the fences are stripped, is not
    valid JSON.  When that text is valid JSON it returns the decoded value
    as it is, whether it is an object or not. *)
Theorem call_llm_fails_soft :
  forall w definition,
    snd (call_llm w definition) = snd (ollama_chat w (prompt definition))
    /\ (exists llm_data, fst (call_llm w definition) = Ok llm_data)
    /\ (forall e,
          fst (ollama_chat w (prompt definition)) = Raise e ->
          fst (call_llm w definition) = Ok (PDict []))
    /\ (forall content e,
          fst (ollama_chat w (prompt definition)) = Ok content ->
          json_loads (strip_fences content) = Raise e ->
          fst (call_llm w definition) = Ok (PDict []))
    /\ (forall content v,
          fst (ollama_chat w (prompt definition)) = Ok content ->
          json_loads (strip_fences content) = Ok v ->
          fst (call_llm w definition) = Ok v).
Proof.
  intros w definition.
  split; [apply call_llm_world|].
  split; [apply call_llm_returns|].
  rewrite call_llm_value. repeat split.
  - intros e ->. reflexivity.
  - intros content e -> H. simpl. now rewrite H.
  - intros content v -> H. simpl. now rewrite H.
Qed.

(* ================================================================= *)
(** ** The rows a record gives *)

Lemma fold_append_rows {A B : Type} (f : A -> B) (l : list A) (acc : list B) :
  fold_left (fun rows x => rows ++ [f x]) l acc = acc ++ map f l.
Proof.
  revert acc. induction l as [|x l IH]; intros acc; simpl.
  - now rewrite app_nil_r.
  - now rewrite IH, <- app_assoc.
Qed.

(** When [expand_row] returns, it has appended to [output_rows] one dict
    per expanded service code, each with the keys of the output table. *)
Lemma expand_row_appends (service_category llm_data : pyval)
  (output_rows out : list dict) :
  expand_row service_category llm_data output_rows = Ok out ->
  exists rows,
    out = output_rows ++ rows
    /\ Forall (fun r => map fst r = output_columns) rows
    /\ length rows = service_code_count llm_data.
Proof.
  unfold expand_row. intros H.
  do 10 bind_inv H. do 3 bind_inv H.
  injection H as <-. rewrite fold_append_rows.
  eexists. split; [reflexivity|]. split.
  - apply Forall_forall. intros r Hr.
    apply in_map_iff in Hr as (code & <- & _). reflexivity.
  - rewrite !length_map. unfold service_code_count. now rewrite E, E8.
Qed.

Lemma py_get_field (d : dict) (key : pystr) :
  field_is_list d key = true ->
  exists l, py_get (PDict d) key (PList []) = Ok (PList l).
Proof.
  unfold field_is_list, py_get. destruct (dict_lookup d key) as [v|].
  - destruct v; try discriminate. eauto.
  - eauto.
Qed.

Lemma safe_join_list (l : list pyval) : exists s, safe_join (PList l) = Ok s.
Proof. unfold safe_join. destruct l; simpl; eauto. Qed.

(** [expand_row] returns on every extraction record. *)
Lemma expand_row_returns (service_category llm_data : pyval)
  (output_rows : list dict) :
  is_record llm_data = true ->
  exists out, expand_row service_category llm_data output_rows = Ok out.
Proof.
  destruct llm_data as [| | | | | |d]; try discriminate.
  unfold is_record. intros H.
  apply andb_prop in H as [H Hp]. apply andb_prop in H as [H Hr].
  apply andb_prop in H as [Hs Hd].
  destruct (py_get_field d _ Hs) as (ls & Es).
  destruct (py_get_field d _ Hd) as (ld & Ed).
  destruct (py_get_field d _ Hr) as (lr & Er).
  destruct (py_get_field d _ Hp) as (lp & Ep).
  destruct (safe_join_list ld) as (sd & Jd).
  destruct (safe_join_list lr) as (sr & Jr).
  destruct (safe_join_list lp) as (sp & Jp).
  unfold expand_row. rewrite Es, Ed, Er, Ep. cbn [bind py_get].
  rewrite expand_service_ranges_list. cbn [bind].
  rewrite Jd, Jr, Jp. cbn [bind]. eauto.
Qed.

(* ================================================================= *)
(** ** The loop over the input rows *)

Lemma process_row_world (w : world) (row : Series) (output_rows : list dict) :
  snd (process_row w row output_rows)
  = snd (call_llm w (series_get row (lit "DEFINITION") (PStr []))).
Proof.
  unfold process_row.
  now destruct (call_llm w (series_get row (lit "DEFINITION") (PStr []))).
Qed.

Lemma process_row_value (w : world) (row : Series) (output_rows : list dict) :
  fst (process_row w row output_rows)
  = (llm_data <-
       fst (call_llm w (series_get row (lit "DEFINITION") (PStr []))) ;;
     if negb (py_bool llm_data) then Ok output_rows
     else expand_row
            (series_get row (lit "SERVICE_CATEGORY_NAME") (PStr []))
            llm_data output_rows).
Proof.
  unfold process_row.
  now destruct (call_llm w (series_get row (lit "DEFINITION") (PStr []))).
Qed.

Lemma process_rows_cons (w : world) (row : Series) (rest : list Series)
  (output_rows : list dict) :
  process_rows w (row :: rest) output_rows
  = match fst (process_row w row output_rows) with
    | Ok output_rows' =>
        process_rows (snd (process_row w row output_rows)) rest output_rows'
    | Raise e => (Raise e, snd (process_row w row output_rows))
    end.
Proof.
  cbn [process_rows]. now destruct (process_row w row output_rows) as [[?|?] ?].
Qed.

(** C7. A row whose extraction is the empty sentinel adds no output row,
    and the run goes on with the next row: its result is the result of the
    run on the rows that follow, from the state of the world the call left
    and with the output rows accumulated so far. *)
Theorem empty_extraction_skipped :
  forall w row rest output_rows,
    fst (call_llm w (series_get row (lit "DEFINITION") (PStr [])))
    = Ok (PDict []) ->
    fst (process_row w row output_rows) = Ok output_rows
    /\ process_rows w (row :: rest) output_rows
       = process_rows
           (snd (call_llm w (series_get row (lit "DEFINITION") (PStr []))))
           rest output_rows.
Proof.
  intros w row rest output_rows H.
  assert (E : fst (process_row w row output_rows) = Ok output_rows).
  { rewrite process_row_value, H. reflexivity. }
  split; [exact E|].
  now rewrite process_rows_cons, E, process_row_world.
Qed.

Lemma process_excel_value (w : world) (df : list Series) :
  fst (process_excel w df)
  = (output_rows <- fst (process_rows w df []) ;;
     Ok (pd_DataFrame output_rows)).
Proof. unfold process_excel. now destruct (process_rows w df []). Qed.

(** When the loop returns, it has appended dicts with the keys of the
    output table. *)
Lemma process_rows_appends (df : list Series) :
  forall w output_rows out,
    fst (process_rows w df output_rows) = Ok out ->
    exists rows,
      out = output_rows ++ rows
      /\ Forall (fun r => map fst r = output_columns) rows.
Proof.
  induction df as [|row rest IH]; intros w output_rows out H.
  - simpl in H. injection H as <-. exists []. now rewrite app_nil_r.
  - rewrite process_rows_cons in H.
    destruct (fst (process_row w row output_rows)) as [mid|e] eqn:E;
      [|discriminate H].
    apply IH in H as (rows2 & -> & F2).
    rewrite process_row_value in E.
    destruct (fst (call_llm w _)) as [llm_data|e]; [|discriminate E].
    cbn [bind] in E. destruct (negb (py_bool llm_data)).
    + injection E as <-. eauto.
    + apply expand_row_appends in E as (rows1 & -> & F1 & _).
      exists (rows1 ++ rows2). rewrite app_assoc. split; [reflexivity|].
      now apply Forall_app.
Qed.

(** The columns [pd.DataFrame] gives a list of dicts depend on the keys
    of the dicts only. *)
Lemma add_labels_keys (record : dict) (cols : list pystr) :
  add_labels cols record
  = fold_left
      (fun cols k =>
         if existsb (pystr_eqb k) cols then cols else cols ++ [k])
      (map fst record) cols.
Proof.
  unfold add_labels. revert cols.
  induction record as [|kv record IH]; intros cols; simpl; [reflexivity|].
  apply IH.
Qed.

Lemma columns_of_output_rows (records : list dict) :
  Forall (fun r => map fst r = output_columns) records ->
  columns (pd_DataFrame records)
  = match records with [] => [] | _ :: _ => output_columns end.
Proof.
  intros F. cbn [pd_DataFrame columns].
  destruct F as [|r records Hr F]; [reflexivity|].
  cbn [fold_left]. rewrite add_labels_keys, Hr.
  change (fold_left _ output_columns []) with output_columns.
  induction F as [|r' records' Hr' F' IH]; [reflexivity|].
  cbn [fold_left]. rewrite add_labels_keys, Hr'. exact IH.
Qed.

Lemma data_of_records (records : list dict) :
  length (data (pd_DataFrame records)) = length records.
Proof. cbn [pd_DataFrame data]. apply length_map. Qed.

(** C2, as the code has it.  The output table takes its columns from the
    accumulated rows: a run that completes with no output row gives a
    table with no column and no row, and a run that completes with at
    least one output row gives a table with exactly the eleven declared
    columns, in their order. *)
Theorem output_table_columns :
  forall w df table,
    fst (process_excel w df) = Ok table ->
    (data table = [] -> columns table = [])
    /\ (data table <> [] -> columns table = output_columns).
Proof.
  intros w df table H. rewrite process_excel_value in H.
  destruct (fst (process_rows w df [])) as [out|e] eqn:E; [|discriminate H].
  cbn [bind] in H. injection H as <-.
  apply process_rows_appends in E as (rows & -> & F). cbn [app].
  pose proof (data_of_records rows) as L.
  rewrite (columns_of_output_rows rows F).
  split; intros D.
  - rewrite D in L. destruct rows; [reflexivity|discriminate L].
  - destruct rows; [|reflexivity]. now destruct D.
Qed.

(** C5. When the extraction of the one input row is the record of the
    example, the output table has the declared columns and three rows, for
    the service codes 100, 101 and 102 in this order, each with the service
    category of the input row, RevenueCode empty, Gender F, Age 18-65,
    DiagnosisCode X1,X2, POS 11, TypeOfBill 131, Modifier M1, Minutes 1 and
    Billed_Amnt 100. *)
Theorem end_to_end_example :
  forall w row,
    fst (call_llm w (series_get row (lit "DEFINITION") (PStr [])))
    = Ok example_record ->
    fst (process_excel w [row])
    = Ok {| columns := output_columns;
            data :=
              map (example_output
                     (series_get row (lit "SERVICE_CATEGORY_NAME") (PStr [])))
                ["100"; "101"; "102"]%string |}.
Proof.
  intros w row H.
  rewrite process_excel_value, process_rows_cons, process_row_value, H.
  generalize (series_get row (lit "SERVICE_CATEGORY_NAME") (PStr [])) as cat.
  generalize (snd (process_row w row [])) as w'.
  intros w' cat. vm_compute. reflexivity.
Qed.

(** A run whose extractions are records completes, and its output rows
    are counted from the extractions of its input rows. *)
Lemma process_rows_count (df : list Series) :
  forall w output_rows,
    Forall (fun llm_data => is_record llm_data = true) (run_extractions w df) ->
    exists rows,
      fst (process_rows w df output_rows) = Ok (output_rows ++ rows)
      /\ length rows
         = list_sum
             (map service_code_count
                (filter (fun d => negb (is_empty_sentinel d))
                   (run_extractions w df))).
Proof.
  induction df as [|row rest IH]; intros w output_rows F.
  - exists []. simpl. now rewrite app_nil_r.
  - rewrite process_rows_cons, process_row_value, process_row_world.
    cbn [run_extractions] in *.
    destruct (call_llm_returns w (series_get row (lit "DEFINITION") (PStr [])))
      as (llm_data & E).
    destruct (call_llm w (series_get row (lit "DEFINITION") (PStr [])))
      as [r w'].
    cbn [fst snd] in *. subst r. cbn [bind].
    inversion F as [|? ? R F']; subst.
    assert (B : py_bool llm_data = negb (is_empty_sentinel llm_data)).
    { destruct llm_data as [| | | | | |d]; try discriminate R. now destruct d. }
    cbn [filter map]. rewrite B.
    destruct (is_empty_sentinel llm_data) eqn:S; cbn [negb].
    + destruct (IH w' output_rows F') as (rows & -> & L). eauto.
    + destruct (expand_row_returns
                  (series_get row (lit "SERVICE_CATEGORY_NAME") (PStr []))
                  llm_data output_rows R) as (out & X).
      rewrite X.
      apply expand_row_appends in X as (rows1 & -> & _ & L1).
      destruct (IH w' (output_rows ++ rows1) F') as (rows2 & -> & L2).
      exists (rows1 ++ rows2). rewrite app_assoc. split; [reflexivity|].
      rewrite length_app, L1, L2. reflexivity.
Qed.

Lemma unexpanded_count (llm_data : pyval) :
  py_bool llm_data = false ->
  is_empty_sentinel llm_data = false ->
  service_code_count llm_data = O.
Proof.
  destruct llm_data as [| | | | | |d]; try reflexivity.
  destruct d; discriminate.
Qed.

(** The same count for every run that completes, whatever the
    extractions are. *)
Lemma process_rows_counted (df : list Series) :
  forall w output_rows out,
    fst (process_rows w df output_rows) = Ok out ->
    exists rows,
      out = output_rows ++ rows
      /\ length rows
         = list_sum
             (map service_code_count
                (filter (fun d => negb (is_empty_sentinel d))
                   (run_extractions w df))).
Proof.
  induction df as [|row rest IH]; intros w output_rows out H.
  - simpl in H. injection H as <-. exists []. now rewrite app_nil_r.
  - rewrite process_rows_cons, process_row_value, process_row_world in H.
    cbn [run_extractions].
    destruct (call_llm_returns w (series_get row (lit "DEFINITION") (PStr [])))
      as (llm_data & E).
    destruct (call_llm w (series_get row (lit "DEFINITION") (PStr [])))
      as [r w'].
    cbn [fst snd] in *. subst r. cbn [bind] in H. cbn [filter map].
    destruct (py_bool llm_data) eqn:B; cbn [negb] in H.
    + assert (S : is_empty_sentinel llm_data = false).
      { destruct llm_data as [| | | | | |d]; try reflexivity.
        now destruct d. }
      rewrite S. cbn [negb map list_sum].
      destruct (expand_row _ llm_data output_rows) as [mid|e] eqn:X;
        [|discriminate H].
      apply expand_row_appends in X as (rows1 & -> & _ & L1).
      apply IH in H as (rows2 & -> & L2).
      exists (rows1 ++ rows2). rewrite app_assoc. split; [reflexivity|].
      rewrite length_app, L1, L2. reflexivity.
    + apply IH in H as (rows & -> & L). exists rows. split; [reflexivity|].
      rewrite L. destruct (is_empty_sentinel llm_data) eqn:S; cbn [negb].
      * reflexivity.
      * cbn [map list_sum]. now rewrite (unexpanded_count _ B S).
Qed.

(** C6. The number of rows of the output table of a run is the sum, over
    the input rows whose extraction is not the empty sentinel, of the number
    of service codes of the row after expansion.  This holds of every run
    that completes, and a run completes when its extractions are records.
    A row whose expanded service codes are none adds no output row. *)
Theorem output_row_count :
  forall w df,
    (forall table,
        fst (process_excel w df) = Ok table ->
        length (data table)
        = list_sum
            (map service_code_count
               (filter (fun d => negb (is_empty_sentinel d))
                  (run_extractions w df))))
    /\ (Forall (fun llm_data => is_record llm_data = true)
          (run_extractions w df) ->
        exists table, fst (process_excel w df) = Ok table)
    /\ (forall service_category llm_data output_rows out,
          expand_row service_category llm_data output_rows = Ok out ->
          service_code_count llm_data = O ->
          out = output_rows).
Proof.
  intros w df. split; [|split].
  - intros table H. rewrite process_excel_value in H.
    destruct (fst (process_rows w df [])) as [out|e] eqn:E; [|discriminate H].
    cbn [bind] in H. injection H as <-.
    apply process_rows_counted in E as (rows & -> & L).
    now rewrite data_of_records.
  - intros F. destruct (process_rows_count df w [] F) as (rows & E & _).
    exists (pd_DataFrame rows). now rewrite process_excel_value, E.
  - intros service_category llm_data output_rows out X Z.
    apply expand_row_appends in X as (rows & -> & _ & L).
    rewrite Z in L. destruct rows; [|discriminate L]. now rewrite app_nil_r.
Qed.

(* ================================================================= *)
(** ** More on [expand_service_ranges] and [safe_join] *)

Lemma ascending_empty (a b : Z) : b < a -> ascending a b = [].
Proof.
  intros H. unfold ascending.
  replace (Z.to_nat (b - a + 1)) with O by lia. reflexivity.
Qed.

(** A range whose second integer is below the first one gives no code at
    all, and no error: the token disappears from the output. *)
Theorem descending_range_dropped :
  (forall code g1 g2,
      re_match_range (py_str code) = Some (g1, g2) ->
      int_of_digits g2 < int_of_digits g1 ->
      expand_service_ranges (PList [code]) = Ok [])
  /\ (forall A B,
        0 <= B < A ->
        expand_service_ranges
          (PList [PStr (str_of_int A ++ [45%N] ++ str_of_int B)])
        = Ok []).
Proof.
  split.
  - intros code g1 g2 M L. rewrite expand_service_ranges_single. f_equal.
    rewrite (expand_token_matched _ _ _ M), ascending_empty by exact L.
    reflexivity.
  - intros A B H. rewrite expand_service_ranges_single. f_equal.
    destruct (str_of_int_digits A) as (NA & DA & IA); [lia|].
    destruct (str_of_int_digits B) as (NB & DB & IB); [lia|].
    assert (R : range_text (str_of_int A) [] [] (str_of_int B)
                  (str_of_int A ++ [45%N] ++ str_of_int B)).
    { unfold range_text. repeat split; auto. }
    pose proof (re_match_range_prefix _ _ _ _ _ [] R) as M.
    rewrite !app_nil_r in M.
    rewrite (expand_token_matched (PStr _) _ _ M), IA, IB.
    rewrite ascending_empty by lia. reflexivity.
Qed.

Lemma count_up_NoDup (a : Z) (n : nat) : NoDup (count_up a n).
Proof.
  revert a. induction n as [|n IH]; intros a; simpl; constructor.
  - intros H. apply count_up_ge in H. lia.
  - apply IH.
Qed.

Lemma str_of_int_NoDup (l : list Z) :
  (forall n, In n l -> 0 <= n) -> NoDup l -> NoDup (map str_of_int l).
Proof.
  induction l as [|x l IH]; intros P D; simpl; [constructor|].
  inversion D as [|? ? Hx Hl]; subst. constructor.
  - intros H. apply in_map_iff in H as (y & E & Hy). apply Hx.
    assert (Y : 0 <= y) by (apply P; now right).
    assert (X : 0 <= x) by (apply P; now left).
    destruct (str_of_int_digits x X) as (_ & _ & Rx).
    destruct (str_of_int_digits y Y) as (_ & _ & Ry).
    rewrite <- Rx, <- E, Ry. exact Hy.
  - apply IH; [|exact Hl]. intros n Hn. apply P. now right.
Qed.

(** A matched token whose first integer is not above the second one gives
    as many codes as the interval has integers, and no code twice. *)
Theorem range_codes_distinct :
  forall code g1 g2,
    re_match_range (py_str code) = Some (g1, g2) ->
    int_of_digits g1 <= int_of_digits g2 ->
    exists out,
      expand_service_ranges (PList [code]) = Ok out
      /\ Z.of_nat (length out) = int_of_digits g2 - int_of_digits g1 + 1
      /\ NoDup out.
Proof.
  intros code g1 g2 M L. rewrite expand_service_ranges_single.
  eexists. split; [reflexivity|].
  rewrite (expand_token_matched _ _ _ M). split.
  - rewrite length_map. unfold ascending. rewrite count_up_length. lia.
  - apply str_of_int_NoDup; [|apply count_up_NoDup].
    intros n Hn. apply count_up_ge in Hn.
    pose proof (int_of_digits_nonneg g1). lia.
Qed.

Lemma re_match_range_int (z : Z) : re_match_range (str_of_int z) = None.
Proof.
  destruct z as [|p|p].
  - reflexivity.
  - apply re_match_range_digits, str_of_int_digits. lia.
  - reflexivity.
Qed.

(** A token that is a number, a truth value or [None] is never taken for a
    range: it is emitted as its string form, also when it is negative. *)
Theorem scalar_tokens_kept :
  (forall z, expand_service_ranges (PList [PInt z]) = Ok [str_of_int z])
  /\ (forall b,
        expand_service_ranges (PList [PBool b])
        = Ok [if b then lit "True" else lit "False"])
  /\ expand_service_ranges (PList [PNone]) = Ok [lit "None"].
Proof.
  split; [|split].
  - intros z. rewrite expand_service_ranges_single. f_equal.
    apply (expand_token_unmatched (PInt z)). apply re_match_range_int.
  - intros [|]; reflexivity.
  - reflexivity.
Qed.

Lemma re_match_range_char (c : N) : re_match_range [c] = None.
Proof.
  unfold re_match_range. simpl. destruct (is_decimal c); reflexivity.
Qed.

(** Service codes given as one string, not as a list of strings, are
    taken character by character: every character is emitted on its own, and
    a range written in the string is not expanded. *)
Theorem string_input_split :
  forall s, expand_service_ranges (PStr s) = Ok (map (fun c => [c]) s).
Proof.
  intros s. unfold expand_service_ranges. cbn [py_iter bind].
  rewrite fold_expand_code. cbn [app]. f_equal.
  induction s as [|c s IH]; simpl; [reflexivity|].
  rewrite IH, (expand_token_unmatched (PStr [c])); [reflexivity|].
  apply re_match_range_char.
Qed.



(* ================================================================= *)
(** ** Stripping the code fences *)

Lemma remove_fence_head (s : pystr) :
  str_remove fence (backtick :: backtick :: backtick :: s)
  = str_remove fence s.
Proof. reflexivity. Qed.

Lemma remove_fence_other (c : N) (s : pystr) :
  starts_with fence (c :: s) = false ->
  str_remove fence (c :: s) = c :: str_remove fence s.
Proof. unfold str_remove. cbn [remove_from]. now intros ->. Qed.

Lemma starts_with_fence_inv (s : pystr) :
  starts_with fence s = true ->
  exists t, s = backtick :: backtick :: backtick :: t.
Proof.
  unfold fence. destruct s as [|a [|b [|c t]]]; cbn [starts_with]; intros H;
    repeat (apply andb_prop in H as [? H]); try discriminate H.
  repeat match goal with E : (_ =? _)%N = true |- _ =>
                           apply N.eqb_eq in E end.
  subst. now exists t.
Qed.

Lemma starts_with_fence_ticks (s : pystr) :
  starts_with fence s = true <-> (3 <= ticks s)%nat.
Proof.
  unfold fence.
  destruct s as [|a [|b [|c s]]]; cbn [starts_with ticks];
    repeat match goal with
           | |- context [(backtick =? ?x)%N] =>
               rewrite (N.eqb_sym backtick x); destruct (x =? backtick)%N
           end;
    cbn; split; intros H; try discriminate; try lia; reflexivity.
Qed.

(** After the removal of the fences, a text starts with as many backticks
    as are left of the ones it started with, taken three by three. *)
Lemma ticks_removed (n : nat) :
  forall s, (length s <= n)%nat ->
            ticks (str_remove fence s) = (ticks s mod 3)%nat.
Proof.
  induction n as [|n IH]; intros s L.
  - destruct s; [reflexivity|simpl in L; lia].
  - destruct (starts_with fence s) eqn:F.
    + apply starts_with_fence_inv in F as (t & ->).
      rename t into s.
      rewrite remove_fence_head. cbn [ticks].
      rewrite !N.eqb_refl, IH by (simpl in L; lia).
      replace (S (S (S (ticks s)))) with (ticks s + 1 * 3)%nat by lia.
      now rewrite Nat.Div0.mod_add.
    + destruct s as [|c s]; [reflexivity|].
      rewrite remove_fence_other by exact F. cbn [ticks].
      destruct (c =? backtick)%N eqn:C; [|reflexivity].
      rewrite IH by (simpl in L; lia).
      assert (T : ~ (3 <= ticks (c :: s))%nat).
      { rewrite <- starts_with_fence_ticks. congruence. }
      cbn [ticks] in T. rewrite C in T.
      rewrite !Nat.mod_small by lia. reflexivity.
Qed.

Lemma no_fence_removed (n : nat) :
  forall s, (length s <= n)%nat -> has_fence (str_remove fence s) = false.
Proof.
  induction n as [|n IH]; intros s L.
  - destruct s; [reflexivity|simpl in L; lia].
  - destruct (starts_with fence s) eqn:F.
    + apply starts_with_fence_inv in F as (t & ->).
      rename t into s.
      rewrite remove_fence_head. apply IH. simpl in L. lia.
    + destruct s as [|c s]; [reflexivity|].
      pose proof (ticks_removed (S n) (c :: s) L) as T.
      rewrite remove_fence_other in * by exact F. cbn [has_fence].
      rewrite IH by (simpl in L; lia). rewrite orb_false_r.
      destruct (starts_with fence (c :: str_remove fence s)) eqn:G;
        [|reflexivity].
      apply starts_with_fence_ticks in G. rewrite T in G.
      pose proof (Nat.mod_upper_bound (ticks (c :: s)) 3). lia.
Qed.

Lemma has_fence_app (a b : pystr) :
  has_fence b = true -> has_fence (a ++ b) = true.
Proof.
  intros H. induction a as [|c a IH]; [exact H|].
  cbn [app has_fence]. rewrite IH. apply orb_true_r.
Qed.

Lemma starts_with_app (p s t : pystr) :
  starts_with p s = true -> starts_with p (s ++ t) = true.
Proof.
  revert s. induction p as [|a p IH]; intros s H; [reflexivity|].
  destruct s as [|b s]; [discriminate H|]. cbn [starts_with app] in *.
  apply andb_prop in H as [E H]. now rewrite E, IH.
Qed.

Lemma has_fence_app_l (a b : pystr) :
  has_fence a = true -> has_fence (a ++ b) = true.
Proof.
  induction a as [|c a IH]; intros H; [discriminate H|].
  cbn [has_fence] in H. change ((c :: a) ++ b) with (c :: (a ++ b)).
  cbn [has_fence]. apply orb_prop in H as [H|H].
  - change (c :: a ++ b) with ((c :: a) ++ b).
    now rewrite (starts_with_app _ _ b H).
  - rewrite IH by exact H. apply orb_true_r.
Qed.

Lemma has_fence_rev (s : pystr) :
  has_fence s = true -> has_fence (rev s) = true.
Proof.
  induction s as [|c s IH]; intros H; [discriminate H|].
  cbn [has_fence] in H. cbn [rev]. apply orb_prop in H as [H|H].
  - apply starts_with_fence_inv in H as (t & E).
    injection E as -> ->. cbn [rev]. rewrite <- !app_assoc.
    apply has_fence_app. reflexivity.
  - apply has_fence_app_l, IH, H.
Qed.

Lemma has_fence_drop_while (p : N -> bool) (s : pystr) :
  has_fence (drop_while p s) = true -> has_fence s = true.
Proof.
  destruct (drop_while_spec p s) as (a & E & _). intros H.
  rewrite E. now apply has_fence_app.
Qed.

Lemma str_strip_no_fence (s : pystr) :
  has_fence s = false -> has_fence (str_strip s) = false.
Proof.
  intros H. destruct (has_fence (str_strip s)) eqn:F; [|reflexivity].
  unfold str_strip in F. apply has_fence_rev in F. rewrite rev_involutive in F.
  apply has_fence_drop_while, has_fence_rev in F.
  rewrite rev_involutive in F. apply has_fence_drop_while in F. congruence.
Qed.

Lemma drop_while_head (p : N -> bool) (s : pystr) :
  match drop_while p s with c :: _ => p c = false | [] => True end.
Proof. destruct (drop_while_spec p s) as (a & _ & _ & H). exact H. Qed.

Lemma drop_while_fixed (p : N -> bool) (s : pystr) :
  match s with c :: _ => p c = false | [] => True end -> drop_while p s = s.
Proof. destruct s as [|c s]; [reflexivity|]. simpl. now intros ->. Qed.

Lemma drop_while_last (p : N -> bool) (s : pystr) :
  match rev s with c :: _ => p c = false | [] => True end ->
  match rev (drop_while p s) with c :: _ => p c = false | [] => True end.
Proof.
  induction s as [|c s IH]; [easy|]. cbn [drop_while].
  destruct (p c) eqn:C; [|easy]. intros H. apply IH.
  cbn [rev] in H. destruct (rev s) as [|d r]; [exact I|exact H].
Qed.

(** The text handed to the JSON decoder holds no fence of three backticks,
    and neither starts nor ends with white space. *)
Theorem strip_fences_clean :
  forall content,
    has_fence (strip_fences content) = false
    /\ match strip_fences content with
       | c :: _ => is_space c = false
       | [] => True
       end
    /\ match rev (strip_fences content) with
       | c :: _ => is_space c = false
       | [] => True
       end.
Proof.
  intros content. unfold strip_fences. split; [|split].
  - apply str_strip_no_fence.
    apply (no_fence_removed (length (str_remove (lit "```json") content))).
    lia.
  - unfold str_strip.
    pose proof (drop_while_head is_space
                  (str_remove (lit "```")
                     (str_remove (lit "```json") content))) as G.
    rewrite <- (rev_involutive (drop_while is_space _)) in G.
    exact (drop_while_last is_space _ G).
  - unfold str_strip. rewrite rev_involutive. apply drop_while_head.
Qed.

Lemma starts_with_tick_free (old' : pystr) (c : N) (s : pystr) :
  (c =? backtick)%N = false -> starts_with (backtick :: old') (c :: s) = false.
Proof.
  intros H. cbn [starts_with]. now rewrite N.eqb_sym, H.
Qed.

Lemma remove_tick_free (old old' a b : pystr) :
  old = backtick :: old' ->
  tick_free a = true ->
  remove_from old (a ++ b) 0 = a ++ remove_from old b 0.
Proof.
  intros -> T. induction a as [|c a IH]; [reflexivity|].
  cbn [tick_free forallb] in T. apply andb_prop in T as [C T].
  apply negb_true_iff in C.
  change ((c :: a) ++ b) with (c :: (a ++ b)). cbn [remove_from].
  rewrite (starts_with_tick_free old' c (a ++ b) C).
  now rewrite IH.
Qed.

Lemma remove_skip (old a b : pystr) :
  remove_from old (a ++ b) (length a) = remove_from old b 0.
Proof.
  induction a as [|c a IH]; [reflexivity|]. cbn [app length remove_from].
  exact IH.
Qed.

Lemma starts_with_self (p s : pystr) : starts_with p (p ++ s) = true.
Proof.
  induction p as [|c p IH]; [reflexivity|]. cbn [app starts_with].
  now rewrite N.eqb_refl.
Qed.

Lemma remove_leading (old b : pystr) :
  old <> [] -> str_remove old (old ++ b) = str_remove old b.
Proof.
  intros H. destruct old as [|c old']; [congruence|].
  unfold str_remove. change ((c :: old') ++ b) with (c :: (old' ++ b)).
  cbn [remove_from].
  change (c :: old' ++ b) with ((c :: old') ++ b).
  rewrite starts_with_self.
  replace (length (c :: old') - 1)%nat with (length old') by (simpl; lia).
  apply remove_skip.
Qed.

Lemma strip_fences_fenced (t : pystr) :
  tick_free t = true ->
  strip_fences (lit "```json" ++ t ++ lit "```") = str_strip t.
Proof.
  intros T. unfold strip_fences. f_equal.
  rewrite remove_leading by discriminate.
  unfold str_remove.
  rewrite (remove_tick_free (lit "```json") (lit "``json") t _ eq_refl T).
  change (remove_from (lit "```json") (lit "```") 0) with (lit "```").
  rewrite (remove_tick_free (lit "```") (lit "``") t _ eq_refl T).
  change (remove_from (lit "```") (lit "```") 0) with (@nil N).
  apply app_nil_r.
Qed.

Lemma strip_fences_bare (t : pystr) :
  tick_free t = true -> strip_fences t = str_strip t.
Proof.
  intros T. unfold strip_fences, str_remove. f_equal.
  rewrite <- (app_nil_r t).
  rewrite (remove_tick_free (lit "```json") (lit "``json") t [] eq_refl T).
  change (remove_from (lit "```json") [] 0) with (@nil N).
  rewrite (remove_tick_free (lit "```") (lit "``") t [] eq_refl T).
  reflexivity.
Qed.

(** A response whose text stands between a fence with the tag json and
    a closing fence gives the extraction that the text alone gives, as long
    as the text itself holds no backtick. *)
Theorem fenced_response_unwrapped :
  forall w1 w2 definition1 definition2 t,
    tick_free t = true ->
    fst (ollama_chat w1 (prompt definition1))
    = Ok (lit "```json" ++ t ++ lit "```") ->
    fst (ollama_chat w2 (prompt definition2)) = Ok t ->
    fst (call_llm w1 definition1) = fst (call_llm w2 definition2).
Proof.
  intros w1 w2 definition1 definition2 t T E1 E2.
  rewrite !call_llm_value, E1, E2. cbn [bind].
  now rewrite strip_fences_fenced, strip_fences_bare.
Qed.

(* ================================================================= *)
(** ** More on the rows of the output table *)

Lemma expand_row_shape (service_category llm_data : pyval)
  (output_rows out : list dict) :
  expand_row service_category llm_data output_rows = Ok out ->
  exists rows,
    out = output_rows ++ rows /\ fanout service_category llm_data rows.
Proof.
  unfold expand_row. intros H.
  do 10 bind_inv H. do 3 bind_inv H.
  injection H as <-. rewrite fold_append_rows.
  eexists. split; [reflexivity|].
  unfold fanout, expanded_codes. rewrite E, E8.
  do 7 eexists. rewrite map_map. reflexivity.
Qed.

Lemma fanout_keys (service_category llm_data : pyval) (rows : list dict) :
  fanout service_category llm_data rows ->
  Forall (fun r => map fst r = output_columns) rows.
Proof.
  intros (rev & g & age & diag & pos & tob & modf & ->).
  apply Forall_forall. intros r Hr.
  apply in_map_iff in Hr as (code & <- & _). reflexivity.
Qed.

Lemma expanded_codes_unexpanded (llm_data : pyval) :
  py_bool llm_data = false -> expanded_codes llm_data = [].
Proof.
  destruct llm_data as [| | | | | |d]; try reflexivity.
  destruct d; [reflexivity|discriminate].
Qed.

(** The rows one input row adds: when the expansion of a row returns, it
    has appended one dict per expanded service code, in the order of the
    codes, and these dicts differ in the service code only. *)
Theorem fanout_shares_fields :
  forall service_category llm_data output_rows out,
    expand_row service_category llm_data output_rows = Ok out ->
    exists revenue_string gender age_range diagnosis_string pos_string
           type_of_bill modifier,
      out
      = output_rows
        ++ map (fun code =>
                  output_row service_category code revenue_string gender
                    age_range diagnosis_string pos_string type_of_bill
                    modifier)
            (expanded_codes llm_data).
Proof.
  intros service_category llm_data output_rows out H.
  apply expand_row_shape in H as (rows & -> & F).
  destruct F as (rev & g & age & diag & pos & tob & modf & ->).
  now exists rev, g, age, diag, pos, tob, modf.
Qed.

(** The output dicts of a run that completes, row by row. *)
Lemma process_rows_shape (df : list Series) :
  forall w output_rows out,
    fst (process_rows w df output_rows) = Ok out ->
    exists rowss,
      out = output_rows ++ concat rowss
      /\ Forall2 (fun p rows => fanout (category_of (fst p)) (snd p) rows)
           (combine df (run_extractions w df)) rowss.
Proof.
  induction df as [|row rest IH]; intros w output_rows out H.
  - simpl in H. injection H as <-. exists []. simpl.
    rewrite app_nil_r. split; [reflexivity|constructor].
  - rewrite process_rows_cons, process_row_value, process_row_world in H.
    cbn [run_extractions].
    destruct (call_llm_returns w (series_get row (lit "DEFINITION") (PStr [])))
      as (llm_data & E).
    destruct (call_llm w (series_get row (lit "DEFINITION") (PStr [])))
      as [r w'].
    cbn [fst snd] in *. subst r. cbn [bind] in H. cbn [combine].
    destruct (py_bool llm_data) eqn:B; cbn [negb] in H.
    + destruct (expand_row _ llm_data output_rows) as [mid|e] eqn:X;
        [|discriminate H].
      apply expand_row_shape in X as (rows1 & -> & F1).
      apply IH in H as (rowss & -> & F2).
      exists (rows1 :: rowss). cbn [concat]. rewrite app_assoc.
      split; [reflexivity|]. constructor; [exact F1|exact F2].
    + apply IH in H as (rowss & -> & F2).
      exists ([] :: rowss). split; [reflexivity|].
      constructor; [|exact F2]. cbn [fst snd]. unfold fanout.
      rewrite (expanded_codes_unexpanded _ B).
      now exists [], PNone, [], [], [], PNone, PNone.
Qed.

Lemma Forall_concat {A : Type} (P : A -> Prop) (ll : list (list A)) :
  Forall (Forall P) ll -> Forall P (concat ll).
Proof.
  induction 1 as [|l ll Hl _ IH]; simpl; [constructor|].
  apply Forall_app. split; assumption.
Qed.

Lemma table_data (records : list dict) :
  Forall (fun r => map fst r = output_columns) records ->
  data (pd_DataFrame records) = map cells_of records.
Proof.
  intros F.
  change (data (pd_DataFrame records))
    with (map (fun record =>
                 map (fun col => series_get record col (PFloat (lit "nan")))
                   (columns (pd_DataFrame records)))
            records).
  rewrite (columns_of_output_rows records F).
  destruct records as [|r records]; reflexivity.
Qed.

(** The table of a run that completes, from the dicts of its rows. *)
Lemma completed_table (w : world) (df : list Series) (table : DataFrame) :
  fst (process_excel w df) = Ok table ->
  exists rowss,
    data table = map cells_of (concat rowss)
    /\ Forall2 (fun p rows => fanout (category_of (fst p)) (snd p) rows)
         (combine df (run_extractions w df)) rowss.
Proof.
  intros H. rewrite process_excel_value in H.
  destruct (fst (process_rows w df [])) as [out|e] eqn:E; [|discriminate H].
  cbn [bind] in H. injection H as <-.
  apply process_rows_shape in E as (rowss & -> & F). cbn [app].
  exists rowss. split; [|exact F].
  apply table_data, Forall_concat.
  clear -F. induction F as [|p rows ps rowss Hp _ IH]; constructor.
  - exact (fanout_keys _ _ _ Hp).
  - exact IH.
Qed.

Lemma cells_of_output_row (service_category : pyval) (code : pystr)
  (revenue_string : pystr) (gender : pyval) (age_range : pystr)
  (diagnosis_string pos_string : pystr) (type_of_bill modifier : pyval) :
  cells_of (output_row service_category code revenue_string gender age_range
              diagnosis_string pos_string type_of_bill modifier)
  = [ service_category; PStr code; PStr revenue_string;
      PStr (py_str gender); PStr age_range; PStr diagnosis_string;
      PStr pos_string; PStr (py_str type_of_bill); PStr (py_str modifier);
      PInt 1; PInt 100 ].
Proof. reflexivity. Qed.

(** Every row of the output table of a run that completes has eleven
    cells; the cells from ServiceCode to Modifier are strings, Minutes is 1
    and Billed_Amnt is 100. *)
Theorem output_cells_typed :
  forall w df table,
    fst (process_excel w df) = Ok table ->
    Forall (fun cells =>
              length cells = 11%nat
              /\ forallb is_string (firstn 8 (skipn 1 cells)) = true
              /\ skipn 9 cells = [PInt 1; PInt 100])
      (data table).
Proof.
  intros w df table H.
  apply completed_table in H as (rowss & -> & F).
  apply Forall_map, Forall_concat.
  induction F as [|p rows ps rowss Hp _ IH]; constructor; [|exact IH].
  destruct Hp as (rev & g & age & diag & pos & tob & modf & ->).
  apply Forall_map, Forall_forall. intros code _.
  rewrite cells_of_output_row. repeat split.
Qed.

(** The ServiceCode column of the table of a run that completes lists the
    expanded service codes of the extractions, input row after input row and,
    for one row, in the order of the expansion. *)
Theorem service_code_column :
  forall w df table,
    fst (process_excel w df) = Ok table ->
    map (fun cells => nth 1 cells PNone) (data table)
    = map PStr (flat_map expanded_codes (run_extractions w df)).
Proof.
  intros w df table H.
  apply completed_table in H as (rowss & -> & F).
  assert (L : length (run_extractions w df) = length df).
  { clear. revert w. induction df as [|row rest IH]; intros w; [reflexivity|].
    cbn [run_extractions].
    destruct (call_llm_returns w (series_get row (lit "DEFINITION") (PStr [])))
      as (v & E).
    destruct (call_llm w (series_get row (lit "DEFINITION") (PStr [])))
      as [r w'].
    cbn [fst] in E. subst r. cbn [length]. now rewrite IH. }
  revert F L. generalize (run_extractions w df) as ds. clear.
  intros ds F. revert rowss F.
  revert ds. induction df as [|row rest IH]; intros ds rowss F L.
  - destruct ds; [|discriminate L]. inversion F; subst. reflexivity.
  - destruct ds as [|d ds]; [discriminate L|]. cbn [combine] in F.
    inversion F as [|? rows ? rowss' Hp F']; subst. cbn [fst snd] in Hp.
    cbn [concat flat_map]. rewrite !map_app.
    rewrite (IH ds rowss' F') by (simpl in L; lia). f_equal.
    destruct Hp as (rev & g & age & diag & pos & tob & modf & ->).
    rewrite !map_map. apply map_ext. intros code.
    now rewrite cells_of_output_row.
Qed.

(** The ServiceCategory column of the table of a run that completes: every
    output row carries the service category of the input row it comes from,
    missing categories being empty strings. *)
Theorem service_category_column :
  forall w df table,
    fst (process_excel w df) = Ok table ->
    map (fun cells => nth 0 cells PNone) (data table)
    = flat_map
        (fun p => repeat (category_of (fst p))
                    (length (expanded_codes (snd p))))
        (combine df (run_extractions w df)).
Proof.
  intros w df table H.
  apply completed_table in H as (rowss & -> & F).
  revert F. generalize (combine df (run_extractions w df)) as ps. clear.
  intros ps F. induction F as [|p rows ps rowss Hp _ IH]; [reflexivity|].
  cbn [concat flat_map]. rewrite !map_app, IH. f_equal.
  destruct Hp as (rev & g & age & diag & pos & tob & modf & ->).
  rewrite !map_map. generalize (expanded_codes (snd p)) as codes.
  induction codes as [|code codes IHc]; [reflexivity|].
  cbn [map length repeat]. now rewrite IHc, cells_of_output_row.
Qed.

(* ================================================================= *)
(** ** More on the loop: skipped rows, aborted runs, calls of the service *)

(** The values that count as false are [None], [False], zero, the empty
    string, the empty list and the empty mapping. *)
Lemma py_bool_false (v : pyval) :
  py_bool v = false <->
  v = PNone \/ v = PBool false \/ v = PInt 0
  \/ v = PFloat (lit "0.0") \/ v = PFloat (lit "-0.0")
  \/ v = PStr [] \/ v = PList [] \/ v = PDict [].
Proof.
  split.
  - destruct v as [|[|]|z|r|s|l|d]; simpl; intros H; try discriminate H; auto.
    + apply negb_false_iff, Z.eqb_eq in H. subst. auto.
    + apply negb_false_iff, orb_prop in H. unfold pystr_eqb in H.
      destruct H as [H|H];
        [destruct (list_eq_dec N.eq_dec r (lit "0.0"))
        |destruct (list_eq_dec N.eq_dec r (lit "-0.0"))];
        try discriminate H; subst; auto 6.
    + destruct s; [auto 7|discriminate H].
    + destruct l; [auto 8|discriminate H].
    + destruct d; [auto 9|discriminate H].
  - intros [->|[->|[->|[->|[->|[->|[->| ->]]]]]]]; reflexivity.
Qed.

(** A row is skipped whenever its extraction counts as false: not for the
    empty mapping only, but also for a JSON [null], [false], zero, empty
    string or empty array.  The output rows stay as they were and the run
    goes on with the next row. *)
Theorem falsy_extraction_skipped :
  forall w row rest output_rows llm_data,
    fst (call_llm w (definition_of row)) = Ok llm_data ->
    ( llm_data = PNone \/ llm_data = PBool false \/ llm_data = PInt 0
      \/ llm_data = PFloat (lit "0.0") \/ llm_data = PFloat (lit "-0.0")
      \/ llm_data = PStr [] \/ llm_data = PList [] \/ llm_data = PDict [] ) ->
    process_rows w (row :: rest) output_rows
    = process_rows (snd (call_llm w (definition_of row))) rest output_rows.
Proof.
  intros w row rest output_rows llm_data E F.
  apply py_bool_false in F. unfold definition_of in *.
  rewrite process_rows_cons, process_row_value, process_row_world, E.
  cbn [bind]. now rewrite F.
Qed.

(** Running the loop over two tables one after the other, the second from
    the output rows and the state of the world the first one left, is running
    it over the rows of both; an exception in the first part ends the run. *)
Lemma process_rows_app :
  forall df1 df2 w output_rows,
    process_rows w (df1 ++ df2) output_rows
    = match process_rows w df1 output_rows with
      | (Ok mid, w') => process_rows w' df2 mid
      | (Raise e, w') => (Raise e, w')
      end.
Proof.
  induction df1 as [|row rest IH]; intros df2 w output_rows; [reflexivity|].
  cbn [app process_rows].
  destruct (process_row w row output_rows) as [[mid|e] w']; [apply IH|].
  reflexivity.
Qed.

(** An extraction that counts as true and is not a mapping (a non-empty
    JSON array or string, a non-zero number, [true]) ends the run with an
    [AttributeError]: no table is made, also of the rows expanded before, and
    the service is not called for the rows that follow. *)
Theorem non_mapping_aborts :
  forall w before row rest mid w' llm_data,
    process_rows w before [] = (Ok mid, w') ->
    fst (call_llm w' (definition_of row)) = Ok llm_data ->
    py_bool llm_data = true ->
    (forall d, llm_data <> PDict d) ->
    process_excel w (before ++ row :: rest)
    = (Raise AttributeError, snd (call_llm w' (definition_of row))).
Proof.
  intros w before row rest mid w' llm_data P E B D.
  unfold process_excel, definition_of in *.
  rewrite process_rows_app, P, process_rows_cons, process_row_value,
    process_row_world, E.
  cbn [bind]. rewrite B. cbn [negb].
  destruct llm_data as [| | | | | |d]; try reflexivity.
  now destruct (D d).
Qed.

Lemma py_get_present (d : dict) (key : pystr) (v default : pyval) :
  dict_lookup d key = Some v -> py_get (PDict d) key default = Ok v.
Proof. intros H. unfold py_get. now rewrite H. Qed.

(** The default of a field stands for a missing key only.  A mapping
    without the key serviceCodes gives no output row, as with an empty
    list; a mapping that has the key with a value that cannot be iterated
    (a JSON [null], a number, a truth value) makes the expansion of the row
    raise [TypeError]. *)
Theorem service_codes_null_or_missing :
  forall service_category d output_rows,
    (forall v,
        dict_lookup d (lit "serviceCodes") = Some v ->
        py_iter v = Raise TypeError ->
        expand_row service_category (PDict d) output_rows = Raise TypeError)
    /\ (dict_lookup d (lit "serviceCodes") = None ->
        is_record (PDict d) = true ->
        expand_row service_category (PDict d) output_rows = Ok output_rows).
Proof.
  intros service_category d output_rows. split.
  - intros v L T. unfold expand_row.
    rewrite (py_get_present d _ v _ L). cbn [bind py_get].
    unfold expand_service_ranges. now rewrite T.
  - intros L R.
    destruct (expand_row_returns service_category (PDict d) output_rows R)
      as (out & X).
    rewrite X. f_equal.
    apply expand_row_appends in X as (rows & -> & _ & C).
    unfold service_code_count, py_get in C. rewrite L in C.
    destruct rows; [|discriminate C]. apply app_nil_r.
Qed.

Lemma process_rows_world (df : list Series) :
  forall w output_rows out,
    fst (process_rows w df output_rows) = Ok out ->
    snd (process_rows w df output_rows) = world_after w df.
Proof.
  induction df as [|row rest IH]; intros w output_rows out H; [reflexivity|].
  rewrite process_rows_cons in *. cbn [world_after].
  destruct (fst (process_row w row output_rows)) as [mid|e]; [|discriminate H].
  rewrite (IH _ _ _ H), process_row_world, call_llm_world. reflexivity.
Qed.

(** A run that completes has called the service once for every input
    row, skipped or not, in the order of the rows, each time with the prompt
    made of the definition of the row. *)
Theorem one_call_per_row :
  forall w df table,
    fst (process_excel w df) = Ok table ->
    snd (process_excel w df) = world_after w df.
Proof.
  intros w df table H. rewrite process_excel_value in H.
  destruct (fst (process_rows w df [])) as [out|e] eqn:E; [|discriminate H].
  rewrite <- (process_rows_world df w [] out E).
  unfold process_excel. now destruct (process_rows w df []).
Qed.

Lemma prompt_parts (definition : pyval) :
  prompt definition
  = removelast (prompt (PStr [])) ++ py_str definition ++ [10%N].
Proof. reflexivity. Qed.

(** The prompt is a fixed text followed by the string form of the
    definition and a line feed: the definition is in it as it is, and two
    definitions with different string forms give different prompts. *)
Theorem prompt_verbatim :
  forall definition1 definition2,
    prompt definition1
    = removelast (prompt (PStr [])) ++ py_str definition1 ++ [10%N]
    /\ (prompt definition1 = prompt definition2 ->
        py_str definition1 = py_str definition2).
Proof.
  intros definition1 definition2. split; [apply prompt_parts|].
  rewrite (prompt_parts definition1), (prompt_parts definition2).
  intros H. apply app_inv_head in H. now apply app_inv_tail in H.
Qed.

(** The Age cell of the rows a mapping gives is empty when both its minAge
    and its maxAge are missing or count as false; otherwise it is the string
    form of minAge, a hyphen and the string form of maxAge, also when one of
    the two is missing (the hyphen then stands at an end). *)
Theorem age_cell :
  forall service_category d output_rows out,
    expand_row service_category (PDict d) output_rows = Ok out ->
    exists rows,
      out = output_rows ++ rows
      /\ Forall
           (fun r =>
              nth 4 (cells_of r) PNone
              = PStr
                  (let min_age := series_get d (lit "minAge") (PStr []) in
                   let max_age := series_get d (lit "maxAge") (PStr []) in
                   if py_bool min_age || py_bool max_age
                   then py_str min_age ++ lit "-" ++ py_str max_age
                   else []))
           rows.
Proof.
  intros service_category d output_rows out H. unfold expand_row in H.
  do 10 bind_inv H. do 3 bind_inv H.
  injection H as <-. rewrite fold_append_rows.
  eexists. split; [reflexivity|].
  apply Forall_map, Forall_forall. intros code _.
  rewrite cells_of_output_row. cbn [nth].
  unfold py_get in E5, E6. injection E5 as <-. injection E6 as <-.
  reflexivity.
Qed.

End Runtime.

(* ================================================================= *)
(** ** The properties at concrete inputs *)

(** Instance of [expand_service_ranges_order]: a range token and a plain
    one. *)
Lemma expand_service_ranges_order_witness :
  (0 <= 99242 <= 99245
   /\ expand_service_ranges latin1_printable
        (PList [PStr (lit "99242-99245")])
      = Ok (map str_of_int (ascending 99242 99245)))
  /\ (~ starts_with_range (lit "99201")
      /\ expand_service_ranges latin1_printable (PList [PStr (lit "99201")])
         = Ok [lit "99201"]).
Proof.
  assert (U : ~ starts_with_range (lit "99201")).
  { intros H. apply re_match_range_iff in H. apply H. reflexivity. }
  split; split.
  - lia.
  - apply (proj2 (proj2 (expand_service_ranges_order latin1_printable))
             (PStr (lit "99242-99245")) 99242 99245); [lia|reflexivity].
  - exact U.
  - exact (proj1 (proj2 (expand_service_ranges_order latin1_printable))
             (PStr (lit "99201")) U).
Defined.

(** Instance of [range_token_reserialized]: leading zeros, and text after
    the range. *)
Lemma range_token_reserialized_witness :
  (re_match_range (lit "007-009") = Some (lit "007", lit "009")
   /\ expand_service_ranges latin1_printable (PList [PStr (lit "007-009")])
      = Ok (map str_of_int (ascending 7 9)))
  /\ (range_text (lit "12") (lit " ") (lit " ") (lit "14") (lit "12 - 14")
      /\ no_digit_ahead (lit "abc") = true
      /\ expand_service_ranges latin1_printable
           (PList [PStr (lit "12 - 14" ++ lit "abc")])
         = expand_service_ranges latin1_printable
             (PList [PStr (lit "12 - 14")])).
Proof.
  assert (R : range_text (lit "12") (lit " ") (lit " ") (lit "14")
                (lit "12 - 14")).
  { unfold range_text. repeat split; try discriminate; reflexivity. }
  split; [split | split; [|split]].
  - reflexivity.
  - apply (proj1 (range_token_reserialized latin1_printable)
             (PStr (lit "007-009")) (lit "007") (lit "009")).
    reflexivity.
  - exact R.
  - reflexivity.
  - apply (proj2 (proj2 (proj2 (range_token_reserialized latin1_printable)))
             (lit "12") (lit " ") (lit " ") (lit "14") (lit "12 - 14")
             (lit "abc") R).
    reflexivity.
Defined.

(** C3 fails on the code: the pattern occurs in the token [A100-102],
    after its first character, and the token is emitted unchanged. *)
Lemma range_inside_token_not_expanded :
  contains_range (lit "A100-102")
  /\ expand_service_ranges latin1_printable (PList [PStr (lit "A100-102")])
     = Ok [lit "A100-102"].
Proof.
  split; [|reflexivity].
  exists (lit "A"), (lit "100-102"). split; [reflexivity|].
  exists (lit "100"), [], [], (lit "102"), (lit "100-102"), [].
  split; [|reflexivity].
  unfold range_text. repeat split; try discriminate; reflexivity.
Qed.

(** Instance of [range_prefix_expanded]: a token that starts with a range,
    and a token with the range further in. *)
Lemma range_prefix_expanded_witness :
  (range_text (lit "12") (lit " ") (lit " ") (lit "14") (lit "12 - 14")
   /\ expand_service_ranges latin1_printable
        (PList [PStr (lit "12 - 14abc")])
      = Ok (map str_of_int
              (ascending (int_of_digits (lit "12"))
                 (int_of_digits
                    (lit "14" ++ fst (span is_decimal (lit "abc")))))))
  /\ (~ starts_with_range (lit "A100-102")
      /\ expand_service_ranges latin1_printable
           (PList [PStr (lit "A100-102")])
         = Ok [lit "A100-102"]).
Proof.
  assert (R : range_text (lit "12") (lit " ") (lit " ") (lit "14")
                (lit "12 - 14")).
  { unfold range_text. repeat split; try discriminate; reflexivity. }
  assert (U : ~ starts_with_range (lit "A100-102")).
  { intros H. apply re_match_range_iff in H. apply H. reflexivity. }
  split; split.
  - exact R.
  - apply (proj1 (range_prefix_expanded latin1_printable
                    (PStr (lit "12 - 14abc")))
             (lit "12") (lit " ") (lit " ") (lit "14") (lit "12 - 14")
             (lit "abc") R).
    reflexivity.
  - exact U.
  - exact (proj2 (range_prefix_expanded latin1_printable
                    (PStr (lit "A100-102"))) U).
Defined.

(** C1 fails on the code: the text of a JSON array is valid JSON and not
    an object, and [call_llm] returns the array, not the empty mapping. *)
Lemma call_llm_returns_non_object :
  json_loads literal_float (strip_fences (dq "[1, 2]"))
  = Ok (PList [PInt 1; PInt 2])
  /\ fst (call_llm latin1_printable literal_float (list (result pystr))
            canned_chat [Ok (dq "[1, 2]")] (PStr (lit "CPT 1 and 2")))
     = Ok (PList [PInt 1; PInt 2])
  /\ Ok (PList [PInt 1; PInt 2]) <> Ok (PDict []).
Proof. repeat split; [vm_compute; reflexivity ..|discriminate]. Qed.

(** Instance of [call_llm_fails_soft]: a service error, a text that is
    not JSON, and a JSON text between fences. *)
Lemma call_llm_fails_soft_witness :
  (fst (canned_chat [Raise ResponseError]
          (prompt latin1_printable (PStr (lit "CPT 1")))) = Raise ResponseError
   /\ fst (call_llm latin1_printable literal_float (list (result pystr))
             canned_chat [Raise ResponseError] (PStr (lit "CPT 1")))
      = Ok (PDict []))
  /\ (json_loads literal_float (strip_fences (lit "Sure! Here it is."))
      = Raise JSONDecodeError
      /\ fst (call_llm latin1_printable literal_float (list (result pystr))
                canned_chat [Ok (lit "Sure! Here it is.")]
                (PStr (lit "CPT 1")))
         = Ok (PDict []))
  /\ (json_loads literal_float (strip_fences example_text) = Ok example_record
      /\ fst (call_llm latin1_printable literal_float (list (result pystr))
                canned_chat [Ok example_text] (PStr (lit "CPT 1")))
         = Ok example_record).
Proof.
  split; [|split]; split.
  - reflexivity.
  - apply (proj1 (proj2 (proj2
             (call_llm_fails_soft latin1_printable literal_float
                (list (result pystr)) canned_chat [Raise ResponseError]
                (PStr (lit "CPT 1"))))) ResponseError).
    reflexivity.
  - vm_compute. reflexivity.
  - apply (proj1 (proj2 (proj2 (proj2
             (call_llm_fails_soft latin1_printable literal_float
                (list (result pystr)) canned_chat
                [Ok (lit "Sure! Here it is.")] (PStr (lit "CPT 1"))))))
             (lit "Sure! Here it is.") JSONDecodeError).
    + reflexivity.
    + vm_compute. reflexivity.
  - vm_compute. reflexivity.
  - apply (proj2 (proj2 (proj2 (proj2
             (call_llm_fails_soft latin1_printable literal_float
                (list (result pystr)) canned_chat [Ok example_text]
                (PStr (lit "CPT 1"))))))
             example_text example_record).
    + reflexivity.
    + vm_compute. reflexivity.
Defined.

(** Instance of [empty_extraction_skipped]: the service fails on the first
    of two rows. *)
Lemma empty_extraction_skipped_witness :
  fst (call_llm latin1_printable literal_float (list (result pystr))
         canned_chat [Raise ResponseError; Ok short_text]
         (series_get example_row (lit "DEFINITION") (PStr [])))
  = Ok (PDict [])
  /\ fst (process_row latin1_printable literal_float (list (result pystr))
            canned_chat [Raise ResponseError; Ok short_text] example_row [])
     = Ok []
  /\ process_rows latin1_printable literal_float (list (result pystr))
       canned_chat [Raise ResponseError; Ok short_text]
       [example_row; other_row] []
     = process_rows latin1_printable literal_float (list (result pystr))
         canned_chat
         (snd (call_llm latin1_printable literal_float (list (result pystr))
                 canned_chat [Raise ResponseError; Ok short_text]
                 (series_get example_row (lit "DEFINITION") (PStr []))))
         [other_row] [].
Proof.
  split; [reflexivity|].
  apply (empty_extraction_skipped latin1_printable literal_float
           (list (result pystr)) canned_chat
           [Raise ResponseError; Ok short_text] example_row [other_row] []).
  reflexivity.
Defined.

(** C2 fails on the code: a run whose only row is skipped ends with a
    table that has no column at all. *)
Lemma empty_run_has_no_columns :
  fst (process_excel latin1_printable literal_float (list (result pystr))
         canned_chat [Raise ResponseError] [example_row])
  = Ok {| columns := []; data := [] |}
  /\ columns {| columns := []; data := [] |} <> output_columns.
Proof. split; [vm_compute; reflexivity|discriminate]. Qed.

(** Instance of [output_table_columns]: a run with output rows. *)
Lemma output_table_columns_witness :
  fst (process_excel latin1_printable literal_float (list (result pystr))
         canned_chat [Ok example_text] [example_row])
  = Ok {| columns := output_columns;
          data :=
            map (example_output (PStr (lit "Office visit")))
              ["100"; "101"; "102"]%string |}
  /\ (data {| columns := output_columns;
              data :=
                map (example_output (PStr (lit "Office visit")))
                  ["100"; "101"; "102"]%string |} <> []
      -> columns {| columns := output_columns;
                    data :=
                      map (example_output (PStr (lit "Office visit")))
                        ["100"; "101"; "102"]%string |} = output_columns).
Proof.
  assert (E : fst (process_excel latin1_printable literal_float
                     (list (result pystr)) canned_chat [Ok example_text]
                     [example_row])
              = Ok {| columns := output_columns;
                      data :=
                        map (example_output (PStr (lit "Office visit")))
                          ["100"; "101"; "102"]%string |}).
  { vm_compute. reflexivity. }
  split; [exact E|].
  exact (proj2 (output_table_columns latin1_printable literal_float
                  (list (result pystr)) canned_chat [Ok example_text]
                  [example_row] _ E)).
Defined.

(** Instance of [end_to_end_example]: the service answers with the JSON
    text of the record, between fences. *)
Lemma end_to_end_example_witness :
  fst (call_llm latin1_printable literal_float (list (result pystr))
         canned_chat [Ok example_text]
         (series_get example_row (lit "DEFINITION") (PStr [])))
  = Ok example_record
  /\ fst (process_excel latin1_printable literal_float (list (result pystr))
            canned_chat [Ok example_text] [example_row])
     = Ok {| columns := output_columns;
             data :=
               map (example_output
                      (series_get example_row (lit "SERVICE_CATEGORY_NAME")
                         (PStr [])))
                 ["100"; "101"; "102"]%string |}.
Proof.
  assert (E : fst (call_llm latin1_printable literal_float
                     (list (result pystr)) canned_chat [Ok example_text]
                     (series_get example_row (lit "DEFINITION") (PStr [])))
              = Ok example_record).
  { vm_compute. reflexivity. }
  split; [exact E|].
  exact (end_to_end_example latin1_printable literal_float
           (list (result pystr)) canned_chat [Ok example_text] example_row E).
Defined.

(** Instance of [output_row_count]: three rows, the second of which is
    skipped; the first gives three output rows and the third gives three. *)
Lemma output_row_count_witness :
  Forall (fun llm_data => is_record llm_data = true)
    (run_extractions latin1_printable literal_float (list (result pystr))
       canned_chat [Ok example_text; Raise ResponseError; Ok short_text]
       [example_row; example_row; other_row])
  /\ exists table,
      fst (process_excel latin1_printable literal_float (list (result pystr))
             canned_chat [Ok example_text; Raise ResponseError; Ok short_text]
             [example_row; example_row; other_row])
      = Ok table
      /\ length (data table)
         = list_sum
             (map (service_code_count latin1_printable)
                (filter (fun d => negb (is_empty_sentinel d))
                   (run_extractions latin1_printable literal_float
                      (list (result pystr)) canned_chat
                      [Ok example_text; Raise ResponseError; Ok short_text]
                      [example_row; example_row; other_row]))).
Proof.
  assert (F : Forall (fun llm_data => is_record llm_data = true)
                (run_extractions latin1_printable literal_float
                   (list (result pystr)) canned_chat
                   [Ok example_text; Raise ResponseError; Ok short_text]
                   [example_row; example_row; other_row])).
  { vm_compute. repeat constructor. }
  split; [exact F|].
  destruct (output_row_count latin1_printable literal_float
              (list (result pystr)) canned_chat
              [Ok example_text; Raise ResponseError; Ok short_text]
              [example_row; example_row; other_row]) as (C & T & _).
  destruct (T F) as (table & E).
  exists table. split; [exact E|]. exact (C table E).
Defined.

(** Instance of [safe_join_contract]: the characters of a string. *)
Lemma safe_join_contract_witness :
  py_iter (PStr (lit "ab")) = Ok [PStr (lit "a"); PStr (lit "b")]
  /\ safe_join latin1_printable (PStr (lit "ab")) = Ok (lit "a,b").
Proof.
  split; [reflexivity|].
  apply (proj1 (proj2 (safe_join_contract latin1_printable))
           (PStr (lit "ab")) [PStr (lit "a"); PStr (lit "b")]).
  reflexivity.
Defined.

(* ================================================================= *)
(** ** Examples *)

Example expand_range :
  expand_service_ranges latin1_printable (PList [PStr (lit "99242-99245")])
  = Ok [lit "99242"; lit "99243"; lit "99244"; lit "99245"].
Proof. vm_compute. reflexivity. Qed.

Example expand_single_code :
  expand_service_ranges latin1_printable (PList [PStr (lit "99201")])
  = Ok [lit "99201"].
Proof. vm_compute. reflexivity. Qed.

Example expand_descending_range :
  expand_service_ranges latin1_printable (PList [PStr (lit "99250-99248")])
  = Ok [].
Proof. vm_compute. reflexivity. Qed.

Example expand_mixed_tokens :
  expand_service_ranges latin1_printable
    (PList [PInt 5; PStr (lit "12 - 14 units"); PStr (lit "G0101"); PNone])
  = Ok [lit "5"; lit "12"; lit "13"; lit "14"; lit "G0101"; lit "None"].
Proof. vm_compute. reflexivity. Qed.

Example join_nothing :
  safe_join latin1_printable (PList []) = Ok []
  /\ safe_join latin1_printable PNone = Ok [].
Proof. split; reflexivity. Qed.

Example two_codes_one_diagnosis :
  expand_row latin1_printable (PStr (lit "Visits"))
    (PDict [ (lit "serviceCodes", PList [PStr (lit "10"); PStr (lit "11")]);
             (lit "diagnosisCodes", PList [PStr (lit "D1")]) ])
    []
  = Ok [ output_row latin1_printable (PStr (lit "Visits")) (lit "10") []
           (PStr []) [] (lit "D1") [] (PStr []) (PStr []);
         output_row latin1_printable (PStr (lit "Visits")) (lit "11") []
           (PStr []) [] (lit "D1") [] (PStr []) (PStr []) ].
Proof. vm_compute. reflexivity. Qed.

Example age_with_one_bound :
  fst (process_excel latin1_printable literal_float (list (result pystr))
         canned_chat [Ok (dq "{'serviceCodes': ['5'], 'minAge': 3}")]
         [other_row])
  = Ok {| columns := output_columns;
          data :=
            [ [ PStr (lit "Imaging"); PStr (lit "5"); PStr []; PStr [];
                PStr (lit "3-"); PStr []; PStr []; PStr []; PStr [];
                PInt 1; PInt 100 ] ] |}.
Proof. vm_compute. reflexivity. Qed.

Example non_object_aborts_the_run :
  fst (process_excel latin1_printable literal_float (list (result pystr))
         canned_chat [Ok (dq "[1, 2]"); Ok example_text]
         [example_row; other_row])
  = Raise AttributeError.
Proof. vm_compute. reflexivity. Qed.

Example decode_surrogate_pair :
  json_loads literal_float (dq "'\ud83d\ude00'") = Ok (PStr [128512%N]).
Proof. vm_compute. reflexivity. Qed.

(* ================================================================= *)
(** ** More properties at concrete inputs *)

(** Instance of [descending_range_dropped]. *)
Lemma descending_range_dropped_witness :
  (re_match_range (lit "99250 - 99248") = Some (lit "99250", lit "99248")
   /\ expand_service_ranges latin1_printable
        (PList [PStr (lit "99250 - 99248")])
      = Ok [])
  /\ (0 <= 99248 < 99250
      /\ expand_service_ranges latin1_printable
           (PList [PStr (str_of_int 99250 ++ [45%N] ++ str_of_int 99248)])
         = Ok []).
Proof.
  split; split.
  - reflexivity.
  - apply (proj1 (descending_range_dropped latin1_printable)
             (PStr (lit "99250 - 99248")) (lit "99250") (lit "99248"));
      [reflexivity|vm_compute; reflexivity].
  - lia.
  - apply (proj2 (descending_range_dropped latin1_printable) 99250 99248).
    lia.
Defined.

(** Instance of [range_codes_distinct]. *)
Lemma range_codes_distinct_witness :
  re_match_range (lit "99242-99245") = Some (lit "99242", lit "99245")
  /\ int_of_digits (lit "99242") <= int_of_digits (lit "99245")
  /\ exists out,
      expand_service_ranges latin1_printable (PList [PStr (lit "99242-99245")])
      = Ok out
      /\ Z.of_nat (length out)
         = int_of_digits (lit "99245") - int_of_digits (lit "99242") + 1
      /\ NoDup out.
Proof.
  split; [reflexivity|]. split; [vm_compute; discriminate|].
  apply (range_codes_distinct latin1_printable (PStr (lit "99242-99245"))
           (lit "99242") (lit "99245")).
  - reflexivity.
  - vm_compute. discriminate.
Defined.


(** Instance of [fenced_response_unwrapped]. *)
Lemma fenced_response_unwrapped_witness :
  tick_free ([10%N] ++ short_text ++ [10%N]) = true
  /\ fst (canned_chat
            [Ok (lit "```json" ++ ([10%N] ++ short_text ++ [10%N])
                 ++ lit "```")]
            (prompt latin1_printable (definition_of other_row)))
     = Ok (lit "```json" ++ ([10%N] ++ short_text ++ [10%N]) ++ lit "```")
  /\ fst (canned_chat [Ok ([10%N] ++ short_text ++ [10%N])]
            (prompt latin1_printable (definition_of other_row)))
     = Ok ([10%N] ++ short_text ++ [10%N])
  /\ fst (call_llm latin1_printable literal_float (list (result pystr))
            canned_chat
            [Ok (lit "```json" ++ ([10%N] ++ short_text ++ [10%N])
                 ++ lit "```")]
            (definition_of other_row))
     = fst (call_llm latin1_printable literal_float (list (result pystr))
              canned_chat [Ok ([10%N] ++ short_text ++ [10%N])]
              (definition_of other_row)).
Proof.
  split; [reflexivity|]. split; [reflexivity|]. split; [reflexivity|].
  apply (fenced_response_unwrapped latin1_printable literal_float
           (list (result pystr)) canned_chat _ _ _ _
           ([10%N] ++ short_text ++ [10%N])); reflexivity.
Defined.

(** Instance of [fanout_shares_fields]. *)
Lemma fanout_shares_fields_witness :
  expand_row latin1_printable (PStr (lit "Office visit")) example_record []
  = Ok (map (fun code =>
               output_row latin1_printable (PStr (lit "Office visit")) code
                 [] (PStr (lit "F")) (lit "18-65") (lit "X1,X2") (lit "11")
                 (PStr (lit "131")) (PStr (lit "M1")))
          [lit "100"; lit "101"; lit "102"])
  /\ exists revenue_string gender age_range diagnosis_string pos_string
            type_of_bill modifier,
      map (fun code =>
             output_row latin1_printable (PStr (lit "Office visit")) code
               [] (PStr (lit "F")) (lit "18-65") (lit "X1,X2") (lit "11")
               (PStr (lit "131")) (PStr (lit "M1")))
        [lit "100"; lit "101"; lit "102"]
      = [] ++ map (fun code =>
                     output_row latin1_printable (PStr (lit "Office visit"))
                       code revenue_string gender age_range diagnosis_string
                       pos_string type_of_bill modifier)
                (expanded_codes latin1_printable example_record).
Proof.
  assert (E : expand_row latin1_printable (PStr (lit "Office visit"))
                example_record []
              = Ok (map (fun code =>
                           output_row latin1_printable
                             (PStr (lit "Office visit")) code
                             [] (PStr (lit "F")) (lit "18-65") (lit "X1,X2")
                             (lit "11") (PStr (lit "131")) (PStr (lit "M1")))
                      [lit "100"; lit "101"; lit "102"])).
  { vm_compute. reflexivity. }
  split; [exact E|].
  exact (fanout_shares_fields latin1_printable _ _ _ _ E).
Defined.

(** Instance of [age_cell]. *)
Lemma age_cell_witness :
  expand_row latin1_printable (PStr (lit "Imaging"))
    (PDict [(lit "serviceCodes", PList [PStr (lit "5")]);
            (lit "minAge", PInt 3)])
    []
  = Ok [output_row latin1_printable (PStr (lit "Imaging")) (lit "5") []
          (PStr []) (lit "3-") [] [] (PStr []) (PStr [])]
  /\ exists rows,
      [output_row latin1_printable (PStr (lit "Imaging")) (lit "5") []
         (PStr []) (lit "3-") [] [] (PStr []) (PStr [])]
      = [] ++ rows
      /\ Forall
           (fun r =>
              nth 4 (cells_of r) PNone
              = PStr
                  (let min_age :=
                     series_get
                       [(lit "serviceCodes", PList [PStr (lit "5")]);
                        (lit "minAge", PInt 3)]
                       (lit "minAge") (PStr []) in
                   let max_age :=
                     series_get
                       [(lit "serviceCodes", PList [PStr (lit "5")]);
                        (lit "minAge", PInt 3)]
                       (lit "maxAge") (PStr []) in
                   if py_bool min_age || py_bool max_age
                   then py_str latin1_printable min_age ++ lit "-"
                        ++ py_str latin1_printable max_age
                   else []))
           rows.
Proof.
  assert (E : expand_row latin1_printable (PStr (lit "Imaging"))
                (PDict [(lit "serviceCodes", PList [PStr (lit "5")]);
                        (lit "minAge", PInt 3)])
                []
              = Ok [output_row latin1_printable (PStr (lit "Imaging"))
                      (lit "5") [] (PStr []) (lit "3-") [] [] (PStr [])
                      (PStr [])]).
  { vm_compute. reflexivity. }
  split; [exact E|].
  exact (age_cell latin1_printable _ _ _ _ E).
Defined.

(** Instance of [output_cells_typed]. *)
Lemma output_cells_typed_witness :
  exists table,
    fst (process_excel latin1_printable literal_float (list (result pystr))
           canned_chat [Ok example_text; Raise ResponseError; Ok short_text]
           [example_row; example_row; other_row])
    = Ok table
    /\ Forall (fun cells =>
                 length cells = 11%nat
                 /\ forallb is_string (firstn 8 (skipn 1 cells)) = true
                 /\ skipn 9 cells = [PInt 1; PInt 100])
         (data table).
Proof.
  destruct (fst (process_excel latin1_printable literal_float
                   (list (result pystr)) canned_chat
                   [Ok example_text; Raise ResponseError; Ok short_text]
                   [example_row; example_row; other_row]))
    as [table|e] eqn:E; [|vm_compute in E; discriminate E].
  exists table. split; [reflexivity|].
  exact (output_cells_typed latin1_printable literal_float
           (list (result pystr)) canned_chat _ _ table E).
Defined.

(** Instance of [service_code_column]. *)
Lemma service_code_column_witness :
  exists table,
    fst (process_excel latin1_printable literal_float (list (result pystr))
           canned_chat [Ok example_text; Raise ResponseError; Ok short_text]
           [example_row; example_row; other_row])
    = Ok table
    /\ map (fun cells => nth 1 cells PNone) (data table)
       = map PStr
           (flat_map (expanded_codes latin1_printable)
              (run_extractions latin1_printable literal_float
                 (list (result pystr)) canned_chat
                 [Ok example_text; Raise ResponseError; Ok short_text]
                 [example_row; example_row; other_row])).
Proof.
  destruct (fst (process_excel latin1_printable literal_float
                   (list (result pystr)) canned_chat
                   [Ok example_text; Raise ResponseError; Ok short_text]
                   [example_row; example_row; other_row]))
    as [table|e] eqn:E; [|vm_compute in E; discriminate E].
  exists table. split; [reflexivity|].
  exact (service_code_column latin1_printable literal_float
           (list (result pystr)) canned_chat _ _ table E).
Defined.

(** Instance of [service_category_column]. *)
Lemma service_category_column_witness :
  exists table,
    fst (process_excel latin1_printable literal_float (list (result pystr))
           canned_chat [Ok example_text; Raise ResponseError; Ok short_text]
           [example_row; example_row; other_row])
    = Ok table
    /\ map (fun cells => nth 0 cells PNone) (data table)
       = flat_map
           (fun p => repeat (category_of (fst p))
                       (length (expanded_codes latin1_printable (snd p))))
           (combine [example_row; example_row; other_row]
              (run_extractions latin1_printable literal_float
                 (list (result pystr)) canned_chat
                 [Ok example_text; Raise ResponseError; Ok short_text]
                 [example_row; example_row; other_row])).
Proof.
  destruct (fst (process_excel latin1_printable literal_float
                   (list (result pystr)) canned_chat
                   [Ok example_text; Raise ResponseError; Ok short_text]
                   [example_row; example_row; other_row]))
    as [table|e] eqn:E; [|vm_compute in E; discriminate E].
  exists table. split; [reflexivity|].
  exact (service_category_column latin1_printable literal_float
           (list (result pystr)) canned_chat _ _ table E).
Defined.

(** Instance of [one_call_per_row]. *)
Lemma one_call_per_row_witness :
  exists table,
    fst (process_excel latin1_printable literal_float (list (result pystr))
           canned_chat
           [Ok example_text; Raise ResponseError; Ok short_text;
            Ok (lit "left over")]
           [example_row; example_row; other_row])
    = Ok table
    /\ snd (process_excel latin1_printable literal_float
              (list (result pystr)) canned_chat
              [Ok example_text; Raise ResponseError; Ok short_text;
               Ok (lit "left over")]
              [example_row; example_row; other_row])
       = world_after latin1_printable (list (result pystr)) canned_chat
           [Ok example_text; Raise ResponseError; Ok short_text;
            Ok (lit "left over")]
           [example_row; example_row; other_row].
Proof.
  destruct (fst (process_excel latin1_printable literal_float
                   (list (result pystr)) canned_chat
                   [Ok example_text; Raise ResponseError; Ok short_text;
                    Ok (lit "left over")]
                   [example_row; example_row; other_row]))
    as [table|e] eqn:E; [|vm_compute in E; discriminate E].
  exists table. split; [reflexivity|].
  exact (one_call_per_row latin1_printable literal_float
           (list (result pystr)) canned_chat _ _ table E).
Defined.

(** Instance of [falsy_extraction_skipped]. *)
Lemma falsy_extraction_skipped_witness :
  fst (call_llm latin1_printable literal_float (list (result pystr))
         canned_chat [Ok (lit "[]"); Ok short_text]
         (definition_of example_row))
  = Ok (PList [])
  /\ process_rows latin1_printable literal_float (list (result pystr))
       canned_chat [Ok (lit "[]"); Ok short_text]
       [example_row; other_row] []
     = process_rows latin1_printable literal_float (list (result pystr))
         canned_chat
         (snd (call_llm latin1_printable literal_float
                 (list (result pystr)) canned_chat
                 [Ok (lit "[]"); Ok short_text] (definition_of example_row)))
         [other_row] [].
Proof.
  split; [reflexivity|].
  apply (falsy_extraction_skipped latin1_printable literal_float
           (list (result pystr)) canned_chat _ example_row [other_row] []
           (PList [])).
  - reflexivity.
  - auto 8.
Defined.

(** Instance of [non_mapping_aborts]. *)
Lemma non_mapping_aborts_witness :
  exists mid,
    process_rows latin1_printable literal_float (list (result pystr))
      canned_chat [Ok example_text; Ok (dq "[1, 2]"); Ok short_text]
      [example_row] []
    = (Ok mid, [Ok (dq "[1, 2]"); Ok short_text])
    /\ process_excel latin1_printable literal_float (list (result pystr))
         canned_chat [Ok example_text; Ok (dq "[1, 2]"); Ok short_text]
         ([example_row] ++ other_row :: [other_row])
       = (Raise AttributeError, [Ok short_text]).
Proof.
  destruct (process_rows latin1_printable literal_float
              (list (result pystr)) canned_chat
              [Ok example_text; Ok (dq "[1, 2]"); Ok short_text]
              [example_row] []) as [[mid|e] w'] eqn:P;
    [|vm_compute in P; discriminate P].
  assert (W : w' = [Ok (dq "[1, 2]"); Ok short_text]).
  { vm_compute in P. now injection P as _ <-. }
  subst w'. exists mid. split; [reflexivity|].
  exact (non_mapping_aborts latin1_printable literal_float
           (list (result pystr)) canned_chat _ [example_row] other_row
           [other_row] mid _ (PList [PInt 1; PInt 2]) P eq_refl eq_refl
           ltac:(discriminate)).
Defined.

(** Instance of [service_codes_null_or_missing]. *)
Lemma service_codes_null_or_missing_witness :
  (dict_lookup [(lit "serviceCodes", PNone); (lit "gender", PStr (lit "F"))]
     (lit "serviceCodes") = Some PNone
   /\ py_iter PNone = Raise TypeError
   /\ expand_row latin1_printable (PStr (lit "Imaging"))
        (PDict [(lit "serviceCodes", PNone); (lit "gender", PStr (lit "F"))])
        []
      = Raise TypeError)
  /\ (dict_lookup [(lit "gender", PStr (lit "F"))] (lit "serviceCodes") = None
      /\ is_record (PDict [(lit "gender", PStr (lit "F"))]) = true
      /\ expand_row latin1_printable (PStr (lit "Imaging"))
           (PDict [(lit "gender", PStr (lit "F"))]) []
         = Ok []).
Proof.
  split; (split; [reflexivity|]); (split; [reflexivity|]).
  - apply (proj1 (service_codes_null_or_missing latin1_printable
                    (PStr (lit "Imaging"))
                    [(lit "serviceCodes", PNone);
                     (lit "gender", PStr (lit "F"))] []) PNone);
      reflexivity.
  - apply (proj2 (service_codes_null_or_missing latin1_printable
                    (PStr (lit "Imaging"))
                    [(lit "gender", PStr (lit "F"))] []));
      reflexivity.
Defined.

(** Instance of [prompt_verbatim]. *)
Lemma prompt_verbatim_witness :
  prompt latin1_printable (PInt 5) = prompt latin1_printable (PStr (lit "5"))
  /\ py_str latin1_printable (PInt 5)
     = py_str latin1_printable (PStr (lit "5")).
Proof.
  split; [reflexivity|].
  apply (proj2 (prompt_verbatim latin1_printable (PInt 5) (PStr (lit "5")))).
  reflexivity.
Defined.
